(** * MazingiraGuard AI: the client-side logic of the dashboard and the chat widget

    A shallow embedding of the functions of [App.tsx],
    [components/Chatbot.tsx], [services/geminiService.ts] and [types.ts]
    that carry behaviour of their own: the agent log, the incident store and
    its CSV export, the PCM decoder, the streamed chat transcript, the video
    job poller and the image analysis facade.

    React state is passed explicitly; a call of the generative backend, of
    the browser or of a JavaScript built-in whose code is not part of the
    repository is an argument of the function that makes it. *)

From Stdlib Require Import ZArith QArith Qround Qcanon Lia Bool.
From Stdlib Require Import Strings.String Strings.Ascii Strings.Byte.
From stdpp Require Import base option list.

Local Open Scope list_scope.
Local Open Scope string_scope.

(** ** JavaScript values *)

Module Js.

(** A JavaScript number, by its exact value, as a fraction in lowest terms.
    The code compares numbers, divides 16-bit integers by 2^15, which is
    exact on binary64, and divides one array length by a channel count, of
    which it uses the integer part and the comparison with integers; for
    these the rational value stands for the number. *)
Inductive number : Type :=
| Num (q : Q)
| PosInf
| NegInf
| NaN.

Definition of_Z (z : Z) : number := Num (inject_Z z).
Definition of_nat (n : nat) : number := of_Z (Z.of_nat n).

(** [x < y] *)
Definition lt (x y : number) : bool :=
  match x, y with
  | NaN, _ | _, NaN => false
  | _, NegInf => false
  | NegInf, _ => true
  | PosInf, _ => false
  | Num _, PosInf => true
  | Num a, Num b => if Qlt_le_dec a b then true else false
  end.

(** [x <= y] *)
Definition le (x y : number) : bool :=
  match x, y with
  | NaN, _ | _, NaN => false
  | NegInf, _ => true
  | _, PosInf => true
  | _, NegInf => false
  | PosInf, _ => false
  | Num a, Num b => if Qlt_le_dec b a then false else true
  end.

(** [x / y] *)
Definition div (x y : number) : number :=
  match x, y with
  | NaN, _ | _, NaN => NaN
  | Num a, Num b =>
      if Qeq_bool b 0 then
        (if Qeq_bool a 0 then NaN
         else if Qlt_le_dec 0 a then PosInf else NegInf)
      else Num (Qred (a / b))
  | Num _, (PosInf | NegInf) => Num 0
  | (PosInf | NegInf), (PosInf | NegInf) => NaN
  | PosInf, Num b => if Qlt_le_dec b 0 then NegInf else PosInf
  | NegInf, Num b => if Qlt_le_dec b 0 then PosInf else NegInf
  end.

(** [!s] is false exactly for a non-empty string. *)
Definition truthy (s : string) : bool :=
  match s with
  | EmptyString => false
  | String _ _ => true
  end.

(** [a || b] on strings *)
Definition or_else (a b : string) : string := if truthy a then a else b.

(** [Array.prototype.join] on an array of strings *)
Fixpoint join (sep : string) (xs : list string) : string :=
  match xs with
  | [] => ""
  | [x] => x
  | x :: rest => x ++ sep ++ join sep rest
  end.

(** [s.replace(/c/g, by)]: every occurrence of the character [c] *)
Fixpoint replace_all (c : ascii) (by_ : string) (s : string) : string :=
  match s with
  | EmptyString => EmptyString
  | String a rest =>
      if Ascii.eqb a c then by_ ++ replace_all c by_ rest
      else String a (replace_all c by_ rest)
  end.

(** [s.substring(0, n)] *)
Definition prefix (n : nat) (s : string) : string := String.substring 0 n s.

(** [s.substring(n)] *)
Fixpoint drop (n : nat) (s : string) : string :=
  match n, s with
  | O, _ => s
  | S _, EmptyString => EmptyString
  | S n', String _ rest => drop n' rest
  end.

(** The occurrences of a character in a string. *)
Fixpoint count (c : ascii) (s : string) : nat :=
  match s with
  | EmptyString => O
  | String a rest => (if Ascii.eqb a c then 1 else 0) + count c rest
  end.

(** [s.split(c)] for a separator of one character *)
Fixpoint split (c : ascii) (s : string) : list string :=
  match s with
  | EmptyString => [EmptyString]
  | String a rest =>
      if Ascii.eqb a c then EmptyString :: split c rest
      else
        match split c rest with
        | first :: others => String a first :: others
        | [] => [String a EmptyString]
        end
  end.

(** [encodeURI], on a string held as its UTF-8 bytes: the letters, digits
    and the marks and reserved characters of a URI stay, every other byte
    becomes [%XX]. *)
Definition uriKept (a : ascii) : bool :=
  let n := nat_of_ascii a in
  ((65 <=? n)%nat && (n <=? 90)%nat) || ((97 <=? n)%nat && (n <=? 122)%nat)
  || ((48 <=? n)%nat && (n <=? 57)%nat)
  || existsb (Ascii.eqb a)
       (list_ascii_of_string ";/?:@&=+$,#-_.!~*'()").

Definition hexDigit (n : nat) : ascii :=
  ascii_of_nat (if (n <? 10)%nat then 48 + n else 55 + n).

Fixpoint encodeURI (s : string) : string :=
  match s with
  | EmptyString => EmptyString
  | String a rest =>
      if uriKept a then String a (encodeURI rest)
      else
        String "%"
          (String (hexDigit (nat_of_ascii a / 16))
             (String (hexDigit (nat_of_ascii a mod 16)) (encodeURI rest)))
  end.

(** What a [throw] or a rejected promise carries: the error's name and
    message. *)
Inductive error : Type := Err (name message : string).

(** How a promise settles. *)
Inductive Settled (A : Type) : Type :=
| Resolved (a : A)
| Rejected (e : error).
Arguments Resolved {A} a.
Arguments Rejected {A} e.

(** [await p; k] inside an [async] function *)
Definition await {A B : Type} (p : Settled A) (k : A -> Settled B) : Settled B :=
  match p with
  | Resolved a => k a
  | Rejected e => Rejected e
  end.

End Js.

(** ** types.ts *)

Module Types.

(** [enum CrimeType]: a string enum; at run time a value of this type is
    the string itself. *)
Definition CrimeType := string.
Definition ILLEGAL_LOGGING : CrimeType := "Illegal Logging".
Definition POACHING_CAMP : CrimeType := "Poaching Camp".
Definition CHARCOAL_BURNING : CrimeType := "Charcoal Burning".
Definition RIVER_POLLUTION : CrimeType := "River Pollution".
Definition UNAUTHORIZED_ENCROACHMENT : CrimeType := "Unauthorized Encroachment".
Definition SUSPICIOUS_VEHICLE : CrimeType := "Suspicious Vehicle".

(** [enum Severity] *)
Definition Severity := string.
Definition LOW : Severity := "Low".
Definition MEDIUM : Severity := "Medium".
Definition HIGH : Severity := "High".
Definition CRITICAL : Severity := "Critical".

Inductive FieldStatus : Type :=
| Detected
| Alerted
| InvestigationPending
| ThreatConfirmed
| AreaSecured
| FalsePositive.

(** The string a [FieldStatus] is at run time. *)
Definition FieldStatus_string (s : FieldStatus) : string :=
  match s with
  | Detected => "Detected"
  | Alerted => "Alerted"
  | InvestigationPending => "Investigation Pending"
  | ThreatConfirmed => "Threat Confirmed"
  | AreaSecured => "Area Secured"
  | FalsePositive => "False Positive"
  end.

Record ReasoningStructure : Type := mkReasoning {
  hypothesis : string;
  evidencePoints : list string;
  alternatives : list string;
  changeDetection : string
}.

Record GroundingSource : Type := mkSource {
  title : string;
  uri : string
}.

Inductive AccuracyRating : Type := Correct | Partial | Incorrect.

Record FieldFeedback : Type := mkFeedback {
  confirmed : option bool;
  accuracyRating : AccuracyRating;
  groundNotes : string;
  updatedBy : string;
  fb_timestamp : Z
}.

Record Location : Type := mkLocation {
  lat : Js.number;
  lng : Js.number;
  region : string
}.

(** [reasoningChain?: string | ReasoningStructure] *)
Inductive Reasoning : Type :=
| PlainText (s : string)
| Structured (r : ReasoningStructure).

Record IncidentReport : Type := mkIncident {
  id : string;
  timestamp : Z;
  type : CrimeType;
  severity : Severity;
  location : Location;
  description : string;
  confidence : Js.number;
  imageUrl : option string;
  status : FieldStatus;
  reasoningChain : option Reasoning;
  groundingSources : option (list GroundingSource);
  feedback : option FieldFeedback
}.

End Types.

(** ** services/geminiService.ts *)

Module GeminiService.
Import Types.

(** A line the service writes with [console.error]. *)
Inductive ConsoleLine : Type := ConsoleError (label : string) (e : Js.error).

(** *** analyzeImagery *)

(** An object that matches the [responseSchema] of the request: the five
    required properties, with the types declared there.  Nothing checks the
    parsed text against the schema: a confidence that is no number (a missing
    property reads [undefined]) is held as [Js.NaN], as which [<] compares
    it. *)
Record AnalysisData : Type := mkData {
  d_type : string;
  d_severity : string;
  d_description : string;
  d_confidence : Js.number;
  d_reasoningChain : ReasoningStructure
}.

(** [response.text], by what [JSON.parse] makes of it. *)
Inductive ResponseText : Type :=
| NoText                      (* undefined or empty: the code reads "{}" instead *)
| Unparsable (e : Js.error)   (* JSON.parse throws, or yields null *)
| Parsed (d : AnalysisData).

(** [data] after [JSON.parse(text)] *)
Inductive Data : Type :=
| EmptyObject
| Object (d : AnalysisData).

Record WebChunk : Type := mkWeb {
  web_title : option string;
  web_uri : string
}.

Record GroundingChunk : Type := mkChunk { web : option WebChunk }.

Record Response : Type := mkResponse {
  text : ResponseText;
  (* response.candidates?.[0]?.groundingMetadata?.groundingChunks *)
  groundingChunks : option (list GroundingChunk)
}.

(** What the record takes from outside the response: the values of
    [Math.random().toString(36)], [Date.now()] and the two jittered
    coordinates. *)
Record Entropy : Type := mkEntropy {
  randomString : string;
  dateNow : Z;
  jitteredLat : Js.number;
  jitteredLng : Js.number
}.

(** [ai.models.generateContent] for the analysis request, as a function of
    what the request is built from. *)
Definition AnalysisBackend : Type :=
  string -> string -> list IncidentReport -> Js.Settled Response.

(** The binary64 values of the literals [0.4] and [0.39]. *)
Definition binary64_0_4 : Q := 3602879701896397 # 9007199254740992.
Definition binary64_0_39 : Q := 3512807709348987 # 9007199254740992.

Definition threshold : Js.number := Js.Num binary64_0_4.

(** [const text = response.text || "{}"; const data = JSON.parse(text);] *)
Definition parseText (t : ResponseText) : Js.Settled Data :=
  match t with
  | NoText => Js.Resolved EmptyObject
  | Unparsable e => Js.Rejected e
  | Parsed d => Js.Resolved (Object d)
  end.

(** [if (!data.type || data.confidence < 0.4) return null;] *)
Definition belowThreshold (data : Data) : bool :=
  match data with
  | EmptyObject => true
  | Object d => negb (Js.truthy (d_type d)) || Js.lt (d_confidence d) threshold
  end.

(** The loop over the grounding chunks. *)
Definition extractSources (chunks : option (list GroundingChunk))
    : list GroundingSource :=
  match chunks with
  | None => []
  | Some cs =>
      omap (fun c =>
              match web c with
              | Some w =>
                  Some {| title := Js.or_else (default "" (web_title w))
                                     "Source Verified";
                          uri := web_uri w |}
              | None => None
              end) cs
  end.

Definition materialize (env : Entropy) (base64Image region_ : string)
    (d : AnalysisData) (sources : list GroundingSource) : IncidentReport :=
  {| id := Js.drop 7 (randomString env);
     timestamp := dateNow env;
     type := d_type d;
     severity := d_severity d;
     location := {| lat := jitteredLat env; lng := jitteredLng env;
                    region := region_ |};
     description := d_description d;
     confidence := d_confidence d;
     imageUrl := Some ("data:image/jpeg;base64," ++ base64Image);
     status := Detected;
     reasoningChain := Some (Structured (d_reasoningChain d));
     groundingSources := Some sources;
     feedback := None |}.

(** The body of the [try] block. *)
Definition analysis (ai : AnalysisBackend) (env : Entropy)
    (base64Image region_ : string) (previousReports : list IncidentReport)
    : Js.Settled (option IncidentReport) :=
  Js.await (ai base64Image region_ previousReports) (fun response =>
  Js.await (parseText (text response)) (fun data =>
  if belowThreshold data then Js.Resolved None
  else
    match data with
    | EmptyObject => Js.Resolved None
    | Object d =>
        Js.Resolved
          (Some (materialize env base64Image region_ d
                   (extractSources (groundingChunks response))))
    end)).

(** [analyzeImagery]: the value the promise resolves with, and what was
    written to the console on the way. *)
Definition analyzeImagery (ai : AnalysisBackend) (env : Entropy)
    (base64Image region_ : string) (previousReports : list IncidentReport)
    : option IncidentReport * list ConsoleLine :=
  match analysis ai env base64Image region_ previousReports with
  | Js.Resolved r => (r, [])
  | Js.Rejected e => (None, [ConsoleError "Gemini Analysis Error:" e])
  end.

(** The analysis fails with [e]: the request is rejected, or the text of the
    response cannot be parsed. *)
Inductive analysisFails (ai : AnalysisBackend) (img reg : string)
    (prev : list IncidentReport) (e : Js.error) : Prop :=
| fails_request :
    ai img reg prev = Js.Rejected e -> analysisFails ai img reg prev e
| fails_parse (response : Response) :
    ai img reg prev = Js.Resolved response ->
    text response = Unparsable e ->
    analysisFails ai img reg prev e.

(** The analysis succeeds with a result the threshold test turns down. *)
Inductive analysisDeclines (ai : AnalysisBackend) (img reg : string)
    (prev : list IncidentReport) : Prop :=
| declines (response : Response) (data : Data) :
    ai img reg prev = Js.Resolved response ->
    parseText (text response) = Js.Resolved data ->
    belowThreshold data = true ->
    analysisDeclines ai img reg prev.

(** *** generateVideo *)

(** The operation object of the video API, as far as the code reads it:
    [done], [error] and [response?.generatedVideos?.[0]?.video?.uri]. *)
Record Operation : Type := mkOperation {
  done : bool;
  op_error : option string;
  videoUri : option string
}.

(** The video API: the submission, and the answer to the [n]-th status query
    (counted from 0) about the operation handed in. *)
Record VeoBackend : Type := mkVeo {
  generateVideos : string -> Js.Settled Operation;
  getVideosOperation : nat -> Operation -> Js.Settled Operation
}.

Definition Blob : Type := string.

(** [fetch(url)] followed by [response.blob()], and [URL.createObjectURL]. *)
Record Browser : Type := mkBrowser {
  fetchBlob : string -> Js.Settled Blob;
  createObjectURL : Blob -> string
}.

(** What [generateVideo] does that can be seen from outside, in order. *)
Inductive Event : Type :=
| Submitted (prompt : string)
| Waited (ms : Z)
| Polled (operation : Operation)
| Fetched (url : string)
| Logged (line : ConsoleLine).

Definition videoPrompt (prompt : string) : string :=
  "A cinematic aerial drone simulation of: " ++ prompt
    ++ ". Highly realistic, 4k, environmental surveillance style.".

(** [while (!operation.done) { await sleep(5000); operation = await
    getVideosOperation({operation}) }], started at query number [n].  The
    loop has no bound of its own; [fuel] bounds the queries followed, and
    [None] says the loop was still running when it ran out. *)
Fixpoint poll (veo : VeoBackend) (fuel n : nat) (operation : Operation)
    : option (list Event * Js.Settled Operation) :=
  if done operation then Some ([], Js.Resolved operation)
  else
    match fuel with
    | O => None
    | S fuel' =>
        match getVideosOperation veo n operation with
        | Js.Rejected e =>
            Some ([Waited 5000; Polled operation], Js.Rejected e)
        | Js.Resolved next =>
            match poll veo fuel' (S n) next with
            | Some (events, r) =>
                Some (Waited 5000 :: Polled operation :: events, r)
            | None => None
            end
        end
    end.

(** From [const downloadLink = ...] to the [return] of the object URL. *)
Definition download (browser : Browser) (apiKey : string)
    (operation : Operation) : list Event * Js.Settled (option string) :=
  let downloadLink := default "" (videoUri operation) in
  if negb (Js.truthy downloadLink) then ([], Js.Resolved None)
  else
    let url := downloadLink ++ "&key=" ++ apiKey in
    match fetchBlob browser url with
    | Js.Rejected e => ([Fetched url], Js.Rejected e)
    | Js.Resolved blob =>
        ([Fetched url], Js.Resolved (Some (createObjectURL browser blob)))
    end.

(** The body of the [try] block. *)
Definition videoJob (veo : VeoBackend) (browser : Browser)
    (apiKey prompt : string) (fuel : nat)
    : option (list Event * Js.Settled (option string)) :=
  let submitted := Submitted (videoPrompt prompt) in
  match generateVideos veo (videoPrompt prompt) with
  | Js.Rejected e => Some ([submitted], Js.Rejected e)
  | Js.Resolved operation =>
      match poll veo fuel 0 operation with
      | None => None
      | Some (events, Js.Rejected e) => Some (submitted :: events, Js.Rejected e)
      | Some (events, Js.Resolved finished) =>
          let '(fetches, r) := download browser apiKey finished in
          Some ((submitted :: events ++ fetches)%list, r)
      end
  end.

(** [generateVideo]: how the promise settles, and the events up to there. *)
Definition generateVideo (veo : VeoBackend) (browser : Browser)
    (apiKey prompt : string) (fuel : nat)
    : option (Js.Settled (option string) * list Event) :=
  match videoJob veo browser apiKey prompt fuel with
  | None => None
  | Some (events, Js.Resolved r) => Some (Js.Resolved r, events)
  | Some (events, Js.Rejected e) =>
      Some (Js.Resolved None,
            (events ++ [Logged (ConsoleError "Video Generation Error:" e)])%list)
  end.

(** [generateVideo] from its first line.  [new GoogleGenAI({ apiKey })]
    stands before the [try]: what the constructor throws is not caught, and
    rejects the promise of the call before anything is submitted. *)
Definition generateVideoCall (newGoogleGenAI : string -> Js.Settled VeoBackend)
    (browser : Browser) (apiKey prompt : string) (fuel : nat)
    : option (Js.Settled (option string) * list Event) :=
  match newGoogleGenAI apiKey with
  | Js.Rejected e => Some (Js.Rejected e, [])
  | Js.Resolved veoAi => generateVideo veoAi browser apiKey prompt fuel
  end.

(** The download, if there was one, and the console line, if there was
    one. *)
Definition downloadOf (url : option string) : list Event :=
  Fetched <$> option_list url.

Definition loggedOf (e : option Js.error) : list Event :=
  (fun e => Logged (ConsoleError "Video Generation Error:" e))
    <$> option_list e.

(** The status queries among some events. *)
Definition isPoll (ev : Event) : bool :=
  match ev with
  | Polled _ => true
  | _ => false
  end.

Definition polls (events : list Event) : nat :=
  length (List.filter isPoll events).

(** Mock backends.  The submitted job is running; the queries before the
    [n]-th report it running and the [n]-th and later ones answer [final]. *)
Definition running : Operation :=
  {| done := false; op_error := None; videoUri := None |}.

Definition completed (locator : string) : Operation :=
  {| done := true; op_error := None; videoUri := Some locator |}.

Definition failed (message : string) : Operation :=
  {| done := true; op_error := Some message; videoUri := None |}.

Definition scripted (n : nat) (final : Js.Settled Operation) : VeoBackend :=
  {| generateVideos := fun _ => Js.Resolved running;
     getVideosOperation := fun k _ =>
       if (k <? n)%nat then Js.Resolved running else final |}.

(** A final answer at which the loop stops. *)
Definition terminal (final : Js.Settled Operation) : Prop :=
  match final with
  | Js.Resolved operation => done operation = true
  | Js.Rejected _ => True
  end.

(** One turn of the loop, and [k] of them, for a job reported running. *)
Definition turn : list Event := [Waited 5000; Polled running].

Definition turns (k : nat) : list Event := concat (replicate k turn).

(** The events of the loop for the operations it asked about, in order:
    a wait of 5000 ms before each query. *)
Definition pollingOf (operations : list Operation) : list Event :=
  flat_map (fun operation => [Waited 5000; Polled operation]) operations.

(** A backend that never reports the job done: every status query is
    answered with an operation that is still running. *)
Definition neverDone (veo : VeoBackend) : Prop :=
  forall k operation,
    match getVideosOperation veo k operation with
    | Js.Resolved next => done next = false
    | Js.Rejected _ => False
    end.

End GeminiService.

(** ** components/Chatbot.tsx *)

Module Chatbot.

(** *** Audio utilities *)

(** [decode], after [atob]: the char codes of the binary string. *)
Definition decode (binaryString : string) : list byte :=
  list_byte_of_string binaryString.

(** The 16-bit word of two bytes, low byte first, read as a signed integer. *)
Definition int16 (lo hi : byte) : Z :=
  let u := (Z.of_N (Byte.to_N lo) + 256 * Z.of_N (Byte.to_N hi))%Z in
  if (u <? 32768)%Z then u else (u - 65536)%Z.

(** The elements of an [Int16Array] over a buffer of these bytes. *)
Fixpoint int16s (data : list byte) : list Z :=
  match data with
  | lo :: hi :: rest => int16 lo hi :: int16s rest
  | _ => []
  end.

(** [new Int16Array(data.buffer)]: a [RangeError] unless the byte length is
    a multiple of the element size.  The view reads in the byte order of the
    platform, which is little-endian wherever the widget runs. *)
Definition Int16Array (data : list byte) : Js.Settled (list Z) :=
  if (length data mod 2 =? 0)%nat then Js.Resolved (int16s data)
  else Js.Rejected
         (Js.Err "RangeError"
            "byte length of Int16Array should be a multiple of 2").

(** An [AudioBuffer]: its sample rate and the [Float32Array] of each channel.
    The values the decoder stores are 16-bit integers over 2^15, which a
    [Float32Array] holds as they are. *)
Record AudioBuffer : Type := mkBuffer {
  sampleRate : Js.number;
  channels : list (list Js.number)
}.

(** The [AudioContext] handed to the decoder: [ctx.createBuffer]. *)
Record AudioContext : Type := mkContext {
  createBuffer : nat -> Js.number -> Js.number -> Js.Settled AudioBuffer
}.

(** [dataInt16[k] / 32768.0]; reading past the end gives [undefined]. *)
Definition sampleAt (dataInt16 : list Z) (k : nat) : Js.number :=
  match dataInt16 !! k with
  | Some v => Js.div (Js.of_Z v) (Js.Num 32768)
  | None => Js.NaN
  end.

(** The turns of [for (let i = 0; i < frameCount; i++)].  The bound is
    infinite only for zero channels, and then the loop is never entered. *)
Definition turnsBelow (frameCount : Js.number) : nat :=
  match frameCount with
  | Js.Num q => Z.to_nat (Qceiling q)
  | _ => O
  end.

(** The inner loop; a write past the end of a typed array does nothing. *)
Definition fillChannel (dataInt16 : list Z) (numChannels channel : nat)
    (frameCount : Js.number) (channelData : list Js.number)
    : list Js.number :=
  fold_left
    (fun cd i => <[i := sampleAt dataInt16 (i * numChannels + channel)]> cd)
    (seq 0 (turnsBelow frameCount)) channelData.

(** The outer loop over the channels still to fill; [getChannelData] throws
    for a channel the buffer does not have. *)
Fixpoint fillChannels (dataInt16 : list Z) (numChannels : nat)
    (frameCount : Js.number) (todo : list nat) (chs : list (list Js.number))
    : Js.Settled (list (list Js.number)) :=
  match todo with
  | [] => Js.Resolved chs
  | channel :: rest =>
      match chs !! channel with
      | None =>
          Js.Rejected (Js.Err "IndexSizeError" "channel index out of bounds")
      | Some channelData =>
          fillChannels dataInt16 numChannels frameCount rest
            (<[channel :=
                 fillChannel dataInt16 numChannels channel frameCount
                   channelData]> chs)
      end
  end.

Definition decodeAudioData (ctx : AudioContext) (data : list byte)
    (sampleRate_ : Js.number) (numChannels : nat) : Js.Settled AudioBuffer :=
  Js.await (Int16Array data) (fun dataInt16 =>
  let frameCount :=
    Js.div (Js.of_nat (length dataInt16)) (Js.of_nat numChannels) in
  Js.await (createBuffer ctx numChannels frameCount sampleRate_) (fun buffer =>
  Js.await
    (fillChannels dataInt16 numChannels frameCount (seq 0 numChannels)
       (channels buffer))
    (fun filled =>
       Js.Resolved {| sampleRate := sampleRate buffer; channels := filled |}))).

(** The signed 16-bit little-endian integer at a byte offset of a buffer
    (0 where the buffer ends before it). *)
Definition int16LE (data : list byte) (offset : nat) : Z :=
  match data !! offset, data !! S offset with
  | Some lo, Some hi => int16 lo hi
  | _, _ => 0%Z
  end.

(** Sample [i] of channel [c] of a buffer. *)
Definition sample (buffer : AudioBuffer) (c i : nat) : option Js.number :=
  channels buffer !! c ≫= fun channelData => channelData !! i.

(** *** The chat transcript *)

Inductive Role : Type := User | Model.

Record Message : Type := mkMessage {
  role : Role;
  text : string;
  videoUrl : option string
}.

(** The component state [handleSend] writes, as React last committed it. *)
Record View : Type := mkView {
  messages : list Message;
  inputValue : string;
  isLoading : bool
}.

(** A state update handed to React.  React runs it when it next renders;
    the updater of the streaming loop reads the variable [fullText] at that
    moment, not at the moment it was queued. *)
Inductive Update : Type :=
| SetInputValue (value : string)
| SetIsLoading (value : bool)
| Append (m : Message)    (* prev => [...prev, m] *)
| SetLastText.            (* prev => { copy; copy[copy.length - 1].text = fullText } *)

(** [newMessages[newMessages.length - 1].text = fullText]; there is nothing
    to assign to in an empty list, and the updater throws. *)
Fixpoint setLastText (fullText : string) (ms : list Message)
    : option (list Message) :=
  match ms with
  | [] => None
  | [m] => Some [{| role := role m; text := fullText; videoUrl := videoUrl m |}]
  | m :: rest => cons m <$> setLastText fullText rest
  end.

Definition applyUpdate (fullText : string) (v : View) (u : Update)
    : option View :=
  match u with
  | SetInputValue value =>
      Some {| messages := messages v; inputValue := value;
              isLoading := isLoading v |}
  | SetIsLoading value =>
      Some {| messages := messages v; inputValue := inputValue v;
              isLoading := value |}
  | Append m =>
      Some {| messages := messages v ++ [m]; inputValue := inputValue v;
              isLoading := isLoading v |}
  | SetLastText =>
      (fun ms => {| messages := ms; inputValue := inputValue v;
                    isLoading := isLoading v |})
        <$> setLastText fullText (messages v)
  end.

Fixpoint applyUpdates (fullText : string) (queue : list Update) (v : View)
    : option View :=
  match queue with
  | [] => Some v
  | u :: rest => applyUpdate fullText v u ≫= applyUpdates fullText rest
  end.

(** A call of [handleSend] under way: the committed state, the updates
    queued since, the variable [fullText], the number of fragments added to
    it, what React has rendered (each transcript with the number of
    fragments applied by then, oldest first) and what went to
    [console.error]. *)
Record Run : Type := mkRun {
  view : View;
  queue : list Update;
  fullText : string;
  applied : nat;
  renders : list (nat * list Message);
  errors : list Js.error
}.

Definition enqueue (u : Update) (r : Run) : Run :=
  {| view := view r; queue := queue r ++ [u]; fullText := fullText r;
     applied := applied r; renders := renders r; errors := errors r |}.

(** React renders: the queued updates are run in order and the result is
    committed and shown.  [None]: an updater threw. *)
Definition flush (r : Run) : option Run :=
  (fun v => {| view := v; queue := []; fullText := fullText r;
               applied := applied r;
               renders := renders r ++ [(applied r, messages v)];
               errors := errors r |})
    <$> applyUpdates (fullText r) (queue r) (view r).

(** An [await]: React renders meanwhile, or not. *)
Definition awaiting (render : bool) (r : Run) : option Run :=
  if render then flush r else Some r.

(** [fullText += c.text] and the [setMessages] call after it. *)
Definition addChunk (c : option string) (r : Run) : Run :=
  enqueue SetLastText
    {| view := view r; queue := queue r;
       fullText := fullText r ++ default "undefined" c;
       applied := S (applied r); renders := renders r; errors := errors r |}.

(** [for await (const chunk of response) { ... }]: before each chunk, and
    before the end of the stream, the loop awaits; [schedule] says at which
    of these awaits React renders. *)
Fixpoint consume (chunks : list (option string)) (schedule : list bool)
    (r : Run) : option Run :=
  awaiting (hd false schedule) r ≫= fun r1 =>
  match chunks with
  | [] => Some r1
  | c :: rest => consume rest (tl schedule) (addChunk c r1)
  end.

(** What [chat.sendMessageStream] returned: the chunks that arrive, each
    with its [text] (which may be undefined), and how the stream ends. *)
Record Stream : Type := mkStream {
  chunks : list (option string);
  failure : option Js.error
}.

Definition errorMessage : Message :=
  {| role := Model;
     text := "Error connecting to satellite link. Please try again.";
     videoUrl := None |}.

(** [catch (error) { ... }] *)
Definition caught (e : Js.error) (r : Run) : Run :=
  enqueue (Append errorMessage)
    {| view := view r; queue := queue r; fullText := fullText r;
       applied := applied r; renders := renders r;
       errors := errors r ++ [e] |}.

(** [handleSend].  [userText] is [inputValue.trim()]; the first element of
    [schedule] is for the await of [sendMessageStream], the rest for the
    awaits of the loop.  React renders once more when the handler is done. *)
Definition handleSend (sendMessageStream : string -> Js.Settled Stream)
    (userText : string) (schedule : list bool) (v : View) : option Run :=
  let idle :=
    {| view := v; queue := []; fullText := ""; applied := 0; renders := [];
       errors := [] |} in
  if negb (Js.truthy userText) || isLoading v then Some idle
  else
    let started :=
      enqueue (SetIsLoading true)
        (enqueue (Append {| role := User; text := userText; videoUrl := None |})
           (enqueue (SetInputValue "") idle)) in
    awaiting (hd false schedule) started ≫= fun r1 =>
    match sendMessageStream userText with
    | Js.Rejected e => flush (enqueue (SetIsLoading false) (caught e r1))
    | Js.Resolved response =>
        consume (chunks response) (tl schedule)
          (enqueue (Append {| role := Model; text := ""; videoUrl := None |}) r1)
        ≫= fun r2 =>
        match failure response with
        | Some e => flush (enqueue (SetIsLoading false) (caught e r2))
        | None => flush (enqueue (SetIsLoading false) r2)
        end
    end.

Definition userMessage (t : string) : Message :=
  {| role := User; text := t; videoUrl := None |}.

Definition modelMessage (t : string) : Message :=
  {| role := Model; text := t; videoUrl := None |}.

(** The state of a run inside the streaming loop, for the transcript [B]
    before the reply: whenever React renders next, it shows [B] and the
    reply with the text [fullText] has then. *)
Definition streaming (B : list Message) (r : Run) : Prop :=
  exists pendingWrite : bool,
    forall ft,
      applyUpdates ft (queue r) (view r)
      = Some {| messages :=
                  B ++ [modelMessage (if pendingWrite then ft else fullText r)];
                inputValue := ""; isLoading := true |}.

(** [f1 + f2 + ... + fn] *)
Definition joined (fragments : list string) : string :=
  fold_right String.append "" fragments.


(** What each chunk adds to [fullText]: its text, or the word a missing text
    is turned into by [+=]. *)
Definition chunkTexts (cs : list (option string)) : list string :=
  default "undefined" <$> cs.

(** The frame count the decoder computes for a buffer of bytes. *)
Definition frameCountOf (data : list byte) (numChannels : nat) : Js.number :=
  Js.div (Js.of_nat (length (int16s data))) (Js.of_nat numChannels).

End Chatbot.

(** ** App.tsx *)

Module App.
Import Types.

Inductive Tab : Type := Dashboard | Monitor | Reports.

(** The pieces of component state the handlers below write. *)
Record State : Type := mkState {
  incidents : list IncidentReport;
  isAnalyzing : bool;
  activeTab : Tab;
  selectedRegion : string;
  agentLog : list string
}.

Definition initialLog : list string :=
  ["System initialized."; "Waiting for satellite uplink..."].

Definition setAgentLog (f : list string -> list string) (st : State) : State :=
  {| incidents := incidents st; isAnalyzing := isAnalyzing st;
     activeTab := activeTab st; selectedRegion := selectedRegion st;
     agentLog := f (agentLog st) |}.

Definition setIncidents (f : list IncidentReport -> list IncidentReport)
    (st : State) : State :=
  {| incidents := f (incidents st); isAnalyzing := isAnalyzing st;
     activeTab := activeTab st; selectedRegion := selectedRegion st;
     agentLog := agentLog st |}.

Definition setIsAnalyzing (b : bool) (st : State) : State :=
  {| incidents := incidents st; isAnalyzing := b;
     activeTab := activeTab st; selectedRegion := selectedRegion st;
     agentLog := agentLog st |}.

Definition setActiveTab (t : Tab) (st : State) : State :=
  {| incidents := incidents st; isAnalyzing := isAnalyzing st;
     activeTab := t; selectedRegion := selectedRegion st;
     agentLog := agentLog st |}.

(** The entry [addLog] builds; [time] is what
    [new Date().toLocaleTimeString()] returned. *)
Definition logEntry (time msg : string) : string :=
  "[" ++ time ++ "] " ++ msg.

(** The updater [addLog] hands to [setAgentLog]:
    [prev => [entry, ...prev.slice(0, 19)]]. *)
Definition logUpdate (time msg : string) (prev : list string) : list string :=
  logEntry time msg :: take 19 prev.

Definition addLog (time msg : string) (st : State) : State :=
  setAgentLog (logUpdate time msg) st.

(** A run of [addLog] calls, oldest call first, and the entries it makes. *)
Definition addLogs (calls : list (string * string)) (st : State) : State :=
  fold_left (fun s c => addLog (fst c) (snd c) s) calls st.

Definition entries (calls : list (string * string)) : list string :=
  map (fun c => logEntry (fst c) (snd c)) calls.

(** [updateIncidentStatus] *)
Definition withStatus (s : FieldStatus) (inc : IncidentReport) : IncidentReport :=
  {| id := id inc; timestamp := timestamp inc; type := type inc;
     severity := severity inc; location := location inc;
     description := description inc; confidence := confidence inc;
     imageUrl := imageUrl inc; status := s;
     reasoningChain := reasoningChain inc;
     groundingSources := groundingSources inc; feedback := feedback inc |}.

Definition updateIncidentStatus (time : string) (id_ : string) (s : FieldStatus)
    (st : State) : State :=
  addLog time
    ("Incident " ++ Js.prefix 5 id_ ++ " status changed to "
       ++ FieldStatus_string s ++ ".")
    (setIncidents
       (map (fun inc => if String.eqb (id inc) id_ then withStatus s inc else inc))
       st).

(** The object [{ ...inc, feedback, status: ... }] of [handleFeedbackSubmit]. *)
Definition withFeedback (fb : FieldFeedback) (inc : IncidentReport) : IncidentReport :=
  {| id := id inc; timestamp := timestamp inc; type := type inc;
     severity := severity inc; location := location inc;
     description := description inc; confidence := confidence inc;
     imageUrl := imageUrl inc;
     status := match accuracyRating fb with
               | Incorrect => FalsePositive
               | _ => ThreatConfirmed
               end;
     reasoningChain := reasoningChain inc;
     groundingSources := groundingSources inc; feedback := Some fb |}.

Definition feedbackUpdate (id_ : string) (fb : FieldFeedback)
    (prev : list IncidentReport) : list IncidentReport :=
  map (fun inc => if String.eqb (id inc) id_ then withFeedback fb inc else inc) prev.

Definition handleFeedbackSubmit (time : string) (id_ : string) (fb : FieldFeedback)
    (st : State) : State :=
  addLog time
    ("Feedback received for " ++ Js.prefix 5 id_
       ++ ". Agent thought signatures updating.")
    (setIncidents (feedbackUpdate id_ fb) st).

(** [incidents.filter(i => i.location.region === selectedRegion)] *)
Definition regionHistory (st : State) : list IncidentReport :=
  List.filter (fun i => String.eqb (region (location i)) (selectedRegion st))
    (incidents st).

(** [handleFileUpload], from the moment a file and an agent are there.
    [base64String] is what follows the comma of the data URL the reader
    produced; [t1], [t2], [t3] are the clock readings of the three [addLog]
    calls.  [analyzeImagery] settles every error itself, so the handler's own
    [catch] has nothing to catch.  The console lines are the agent's. *)
Definition handleFileUpload (ai : GeminiService.AnalysisBackend)
    (env : GeminiService.Entropy) (t1 t2 t3 : string) (base64String : string)
    (st : State) : State * list GeminiService.ConsoleLine :=
  let st1 :=
    addLog t1 ("Ingesting satellite sector imagery for "
                 ++ selectedRegion st ++ "...")
      (setIsAnalyzing true st) in
  let st2 := addLog t2 "Analyzing change signatures & grounding facts..." st1 in
  let history := regionHistory st in
  let '(result, console) :=
    GeminiService.analyzeImagery ai env base64String (selectedRegion st) history in
  let st3 :=
    match result with
    | Some r =>
        setActiveTab Reports
          (addLog t3 ("ALERT: " ++ type r ++ " detected. Priority: "
                        ++ severity r ++ ".")
             (setIncidents (fun prev => r :: prev) st2))
    | None =>
        addLog t3 "Sector scan complete. No critical threats identified." st2
    end in
  (setIsAnalyzing false st3, console).

(** The file the input hands over, by what its [FileReader] holds when
    [loadend] fires: the data URL, or null after a read that failed. *)
Record File : Type := mkFile { readerResult : option string }.

(** [agentRef.current]: the model request of [analyzeImagery], as a function
    of the image data the handler passes, which may be [undefined]. *)
Definition Agent : Type :=
  option string -> string -> list IncidentReport
  -> Js.Settled GeminiService.Response.

(** A value that is a string or [undefined], inside a template literal. *)
Definition interpolated (x : option string) : string :=
  match x with
  | Some s => s
  | None => "undefined"
  end.

(** [handleFileUpload] from the change event of the file input:
    [file] is [event.target.files?.[0]].  Without a file or an agent the
    handler returns at once.  [(reader.result as string).split(',')[1]]
    stands before the [try]: on a null result it throws out of the
    [loadend] callback, past the [finally] that clears the flag.  The third
    component is what the callback throws. *)
Definition handleFileUploadEvent (file : option File) (agentRef : option Agent)
    (env : GeminiService.Entropy) (t1 t2 t3 : string) (st : State)
    : State * list GeminiService.ConsoleLine * option Js.error :=
  match file, agentRef with
  | Some f, Some agent =>
      match readerResult f with
      | None =>
          (addLog t1 ("Ingesting satellite sector imagery for "
                        ++ selectedRegion st ++ "...")
             (setIsAnalyzing true st),
           [],
           Some (Js.Err "TypeError"
                   "Cannot read properties of null (reading 'split')"))
      | Some result =>
          let base64String := Js.split "," result !! 1%nat in
          let '(st', console) :=
            handleFileUpload (fun _ => agent base64String) env t1 t2 t3
              (interpolated base64String) st in
          (st', console, None)
      end
  | _, _ => (st, [], None)
  end.

(** The "Verified Alerts" figure of the dashboard:
    [incidents.filter(i => i.status === 'Threat Confirmed').length]. *)
Definition isThreatConfirmed (s : FieldStatus) : bool :=
  match s with
  | ThreatConfirmed => true
  | _ => false
  end.

Definition verifiedAlerts (st : State) : nat :=
  length (List.filter (fun i => isThreatConfirmed (status i)) (incidents st)).

(** *** CSV export *)

(** The built-ins the export calls on values of the records:
    [Date.prototype.toISOString] on a time in milliseconds, and the
    conversion of a number to a string that [join] applies. *)
Record Builtins : Type := mkBuiltins {
  toISOString : Z -> string;
  numberToString : Js.number -> string
}.

Definition dquote : ascii := "034"%char.
Definition lineFeed : ascii := "010"%char.

Definition headers : list string :=
  ["ID"; "Timestamp"; "Type"; "Severity"; "Region"; "Status"; "Confidence";
   "Description"].

(** The description cell: the text between double quotes, each double quote
    of it replaced by two. *)
Definition escaped (description_ : string) : string :=
  Js.replace_all dquote (String dquote (String dquote "")) description_.

Definition quoted (description_ : string) : string :=
  String dquote (escaped description_ ++ String dquote "").

Definition row (rt : Builtins) (inc : IncidentReport) : list string :=
  [id inc; toISOString rt (timestamp inc); type inc; severity inc;
   region (location inc); FieldStatus_string (status inc);
   numberToString rt (confidence inc); quoted (description inc)].

(** [[headers.join(","), ...rows.map(r => r.join(","))]] *)
Definition csvRows (rt : Builtins) (incs : list IncidentReport) : list string :=
  Js.join "," headers :: map (fun r => Js.join "," r) (map (row rt) incs).

(** The rows joined by line feeds: the text of the exported file. *)
Definition csvText (rt : Builtins) (incs : list IncidentReport) : string :=
  Js.join (String lineFeed "") (csvRows rt incs).

Definition csvContent (rt : Builtins) (incs : list IncidentReport) : string :=
  "data:text/csv;charset=utf-8," ++ csvText rt incs.

(** The link the handler clicks. *)
Record Download : Type := mkDownload {
  href : string;
  download : string
}.

(** [handleExportCSV]; [now] is the time of the export, [time] the clock
    reading of its log entry. *)
Definition handleExportCSV (rt : Builtins) (time : string) (now : Z)
    (st : State) : State * option Download :=
  match incidents st with
  | [] => (st, None)
  | _ :: _ =>
      (addLog time "Active reports exported to CSV." st,
       Some {| href := Js.encodeURI (csvContent rt (incidents st));
               download := "mazingira_reports_" ++ toISOString rt now ++ ".csv" |})
  end.

(** The lines of a text. *)
Definition lines (s : string) : list string := Js.split lineFeed s.

(** Reading an escaped text back: two double quotes stand for one. *)
Fixpoint unescaped (s : string) : string :=
  match s with
  | EmptyString => EmptyString
  | String a rest =>
      if Ascii.eqb a dquote then
        match rest with
        | String b rest' =>
            if Ascii.eqb b dquote then String dquote (unescaped rest')
            else String a (unescaped rest)
        | EmptyString => String a EmptyString
        end
      else String a (unescaped rest)
  end.

(** Every double quote of the text is one of two in a row. *)
Fixpoint paired (s : string) : bool :=
  match s with
  | EmptyString => true
  | String a rest =>
      if Ascii.eqb a dquote then
        match rest with
        | String b rest' => Ascii.eqb b dquote && paired rest'
        | EmptyString => false
        end
      else paired rest
  end.

(** What [handleFeedbackSubmit] leaves of an incident it rewrites: every field
    but [feedback] and [status]. *)
Definition sameReport (a b : IncidentReport) : Prop :=
  id a = id b /\ timestamp a = timestamp b /\ type a = type b
  /\ severity a = severity b /\ location a = location b
  /\ description a = description b /\ confidence a = confidence b
  /\ imageUrl a = imageUrl b /\ reasoningChain a = reasoningChain b
  /\ groundingSources a = groundingSources b.

(** *** Reading an exported row back

    A reader of one CSV row in the way of RFC 4180: a cell that opens with a
    double quote runs to the first double quote that is not doubled, any
    other cell to the next comma. *)

(** The text of a quoted cell after its opening quote, and what follows the
    closing quote. *)
Fixpoint readQuotedBody (s : string) : option (string * string) :=
  match s with
  | EmptyString => None
  | String a rest =>
      if Ascii.eqb a dquote then
        match rest with
        | String b rest' =>
            if Ascii.eqb b dquote then
              (fun p => (String dquote (fst p), snd p)) <$> readQuotedBody rest'
            else Some (EmptyString, rest)
        | EmptyString => Some (EmptyString, EmptyString)
        end
      else (fun p => (String a (fst p), snd p)) <$> readQuotedBody rest
  end.

(** A plain cell, and the text after its comma if there is one. *)
Fixpoint readPlain (s : string) : string * option string :=
  match s with
  | EmptyString => (EmptyString, None)
  | String a rest =>
      if Ascii.eqb a "," then (EmptyString, Some rest)
      else (String a (fst (readPlain rest)), snd (readPlain rest))
  end.

(** The cells of a row; [fuel] bounds their number. *)
Fixpoint readRow (fuel : nat) (s : string) : option (list string) :=
  match fuel with
  | O => None
  | S fuel' =>
      match s with
      | String a rest =>
          if Ascii.eqb a dquote then
            match readQuotedBody rest with
            | Some (body, EmptyString) => Some [body]
            | Some (body, String b more) =>
                if Ascii.eqb b "," then cons body <$> readRow fuel' more
                else None
            | None => None
            end
          else
            match snd (readPlain s) with
            | None => Some [fst (readPlain s)]
            | Some more => cons (fst (readPlain s)) <$> readRow fuel' more
            end
      | EmptyString => Some [EmptyString]
      end
  end.

(** A cell that a reader takes for a plain one, whole: it holds no comma and
    does not open with a double quote. *)
Definition plainCell (c : string) : Prop :=
  Js.count "," c = 0
  /\ match c with
     | String a _ => Ascii.eqb a dquote = false
     | EmptyString => True
     end.

(** The record's values in the order of the columns. *)
Definition rowValues (rt : Builtins) (inc : IncidentReport) : list string :=
  [id inc; toISOString rt (timestamp inc); type inc; severity inc;
   region (location inc); FieldStatus_string (status inc);
   numberToString rt (confidence inc); description inc].

End App.

(** ** components/IncidentCard.tsx *)

Module IncidentCard.
Import Types.

(** The form state of a card, a [Partial<FieldFeedback>] with the fields the
    card fills. *)
Record Form : Type := mkForm {
  f_confirmed : option bool;
  f_rating : AccuracyRating;
  f_notes : string
}.

Definition initialForm : Form :=
  {| f_confirmed := Some true; f_rating := Correct; f_notes := "" |}.

(** The local state of a card. *)
Record Card : Type := mkCard {
  showFeedbackForm : bool;
  showReasoningDetail : bool;
  form : Form
}.

Definition initialCard : Card :=
  {| showFeedbackForm := false; showReasoningDetail := false;
     form := initialForm |}.

Definition setShowFeedbackForm (b : bool) (card : Card) : Card :=
  {| showFeedbackForm := b; showReasoningDetail := showReasoningDetail card;
     form := form card |}.

Definition setFeedback (f : Form) (card : Card) : Card :=
  {| showFeedbackForm := showFeedbackForm card;
     showReasoningDetail := showReasoningDetail card; form := f |}.

(** The object [handleSubmitFeedback] hands to [onFeedbackSubmit];
    [now] is [Date.now()]. *)
Definition submittedFeedback (now : Z) (f : Form) : FieldFeedback :=
  {| confirmed := f_confirmed f; accuracyRating := f_rating f;
     groundNotes := f_notes f; updatedBy := "Ranger-KWS-HQ";
     fb_timestamp := now |}.

(** [incident.status === 'Detected']: the card shows "Sync to Dispatch". *)
Definition showsDispatch (inc : IncidentReport) : bool :=
  match status inc with
  | Detected => true
  | _ => false
  end.

(** [(incident.status === 'Alerted' || incident.status === 'Investigation
    Pending') && !showFeedbackForm]: the card shows "Field Verification". *)
Definition showsVerify (inc : IncidentReport) (card : Card) : bool :=
  match status inc with
  | Alerted | InvestigationPending => negb (showFeedbackForm card)
  | _ => false
  end.

End IncidentCard.

(** ** The registry: App.tsx with its incident cards *)

Module Registry.
Import Types IncidentCard.

(** The incident store with the local state of the card of each incident,
    in the order of the incidents. *)
Record Screen : Type := mkScreen {
  app : App.State;
  cards : list Card
}.

Definition initial (st : App.State) : Screen :=
  {| app := st; cards := [] |}.

Definition withApp (st : App.State) (s : Screen) : Screen :=
  {| app := st; cards := cards s |}.

Definition withCard (i : nat) (card : Card) (s : Screen) : Screen :=
  {| app := app s; cards := <[i := card]> (cards s) |}.

(** What happens on the registry.  The answer of the agent to an upload
    arrives, possibly for a call made in an earlier state, and a record is
    put in front, with a new card; a control of a card is used, which needs
    it to be rendered; a card is mounted anew, with its local state back to
    the initial one; or something else is set in [App] (the log, the tab, the
    region, the filter), and the incidents stay. *)
Inductive step (s : Screen) : Screen -> Prop :=
| step_found ai env img reg prev r st' :
    fst (GeminiService.analyzeImagery ai env img reg prev) = Some r ->
    App.incidents st' = r :: App.incidents (app s) ->
    step s {| app := st'; cards := initialCard :: cards s |}
| step_other st' :
    App.incidents st' = App.incidents (app s) ->
    step s (withApp st' s)
| step_dispatch i inc time :
    App.incidents (app s) !! i = Some inc ->
    showsDispatch inc = true ->
    step s (withApp (App.updateIncidentStatus time (id inc) Alerted (app s)) s)
| step_open i inc card :
    App.incidents (app s) !! i = Some inc ->
    cards s !! i = Some card ->
    showsVerify inc card = true ->
    step s (withCard i (setShowFeedbackForm true card) s)
| step_close i card :
    cards s !! i = Some card ->
    showFeedbackForm card = true ->
    step s (withCard i (setShowFeedbackForm false card) s)
| step_rating i card rating :
    cards s !! i = Some card ->
    showFeedbackForm card = true ->
    step s
      (withCard i
         (setFeedback {| f_confirmed := f_confirmed (form card);
                         f_rating := rating; f_notes := f_notes (form card) |}
            card) s)
| step_notes i card notes :
    cards s !! i = Some card ->
    showFeedbackForm card = true ->
    step s
      (withCard i
         (setFeedback {| f_confirmed := f_confirmed (form card);
                         f_rating := f_rating (form card); f_notes := notes |}
            card) s)
| step_submit i inc card time now :
    App.incidents (app s) !! i = Some inc ->
    cards s !! i = Some card ->
    showFeedbackForm card = true ->
    step s
      (withCard i (setShowFeedbackForm false card)
         (withApp
            (App.handleFeedbackSubmit time (id inc)
               (submittedFeedback now (form card)) (app s)) s))
| step_remount i card :
    cards s !! i = Some card ->
    step s (withCard i initialCard s).

(** The ids of the incidents on the screen. *)
Definition ids (s : Screen) : list string := id <$> App.incidents (app s).

(** The screens a session reaches from an empty registry, as long as the
    ids drawn for new records are new. *)
Inductive reachable : Screen -> Prop :=
| reach_initial st :
    App.incidents st = [] -> reachable (initial st)
| reach_step s s' :
    reachable s -> step s s' -> NoDup (ids s') -> reachable s'.

(** The screens that follow a screen in a session. *)
Inductive reaches (s : Screen) : Screen -> Prop :=
| reaches_here : reaches s s
| reaches_step s1 s2 :
    reaches s s1 -> step s1 s2 -> NoDup (ids s2) -> reaches s s2.

(** An incident and its card agree. *)
Definition settled (inc : IncidentReport) (card : Card) : Prop :=
  f_confirmed (form card) = Some true
  /\ match feedback inc with
     | None =>
         (status inc = Detected /\ showFeedbackForm card = false)
         \/ status inc = Alerted
     | Some fb =>
         showFeedbackForm card = false
         /\ confirmed fb = Some true
         /\ updatedBy fb = "Ranger-KWS-HQ"
         /\ status inc = match accuracyRating fb with
                         | Incorrect => FalsePositive
                         | _ => ThreatConfirmed
                         end
     end.

Definition consistent (s : Screen) : Prop :=
  NoDup (ids s) /\ Forall2 settled (App.incidents (app s)) (cards s).

(** The feedback of a record says that the agent was right, at least in
    part. *)
Definition upheld (inc : IncidentReport) : bool :=
  match feedback inc with
  | Some fb =>
      match accuracyRating fb with
      | Incorrect => false
      | _ => true
      end
  | None => false
  end.

End Registry.

(** ** Sample data *)

Module Samples.
Import Types GeminiService.

Definition reasoning : ReasoningStructure :=
  {| hypothesis := "Selective logging along the eastern ridge";
     evidencePoints := ["Fresh track marks"; "Canopy gaps"];
     alternatives := ["Seasonal leaf loss"];
     changeDetection := "Expanding since the last pass" |}.

Definition env : Entropy :=
  {| randomString := "0.k3x9q2m7p1";
     dateNow := 1768465800000;
     jitteredLat := Js.Num (-1286389 # 1000000);
     jitteredLng := Js.Num (36817223 # 1000000) |}.

(** The result objects of the threshold examples: confidence 0.40 and 0.39. *)
Definition atThreshold : AnalysisData :=
  mkData ILLEGAL_LOGGING HIGH "Fresh clearing near the river"
    (Js.Num binary64_0_4) reasoning.

Definition belowIt : AnalysisData :=
  mkData ILLEGAL_LOGGING HIGH "Fresh clearing near the river"
    (Js.Num binary64_0_39) reasoning.

(** A result with a category and without a confidence. *)
Definition noConfidence : AnalysisData :=
  mkData ILLEGAL_LOGGING HIGH "Fresh clearing near the river" Js.NaN reasoning.

Definition answers (d : AnalysisData) : AnalysisBackend :=
  fun _ _ _ => Js.Resolved {| text := Parsed d; groundingChunks := None |}.

(** A backend that cannot be reached. *)
Definition unreachable : AnalysisBackend :=
  fun _ _ _ => Js.Rejected (Js.Err "TypeError" "Failed to fetch").

(** A browser in which the download succeeds. *)
Definition browser : Browser :=
  {| fetchBlob := fun _ => Js.Resolved "ftypmp42";
     createObjectURL := fun _ =>
       "blob:https://mazingira.app/0d9c3a5e-7b1f-4c2a-9e3d-5f6a7b8c9d0e" |}.

Definition locator : string :=
  "https://generativelanguage.googleapis.com/v1beta/files/k3x9:download?alt=media".

(** An audio context in the way of the Web Audio API: [createBuffer] takes
    its length as an unsigned long, dropping the fraction, refuses zero
    channels and zero frames, and returns silent channels. *)
Definition toUint32 (x : Js.number) : nat :=
  match x with
  | Js.Num q =>
      Z.to_nat ((if Qlt_le_dec q 0 then (- Qfloor (- q)) else Qfloor q)
                  mod 4294967296)
  | _ => O
  end.

Definition webAudio : Chatbot.AudioContext :=
  {| Chatbot.createBuffer := fun numChannels length_ rate =>
       if ((numChannels =? 0) || (toUint32 length_ =? 0))%nat then
         Js.Rejected
           (Js.Err "NotSupportedError" "createBuffer: argument out of range")
       else
         Js.Resolved
           {| Chatbot.sampleRate := rate;
              Chatbot.channels :=
                replicate numChannels (replicate (toUint32 length_) (Js.Num 0)) |}
  |}.

(** Three 16-bit samples: 1, 256, -2. *)
Definition truncated : list byte := [x01; x00; x00; x01; xfe; xff]%byte.

(** Two stereo frames: left 1 and -2, right 256 and -32768. *)
Definition stereo : list byte :=
  [x01; x00; x00; x01; xfe; xff; x00; x80]%byte.

(** The chat widget as it opens, and a reply that arrives in three
    fragments, the second of them empty. *)
Definition greeting : Chatbot.Message :=
  {| Chatbot.role := Chatbot.Model;
     Chatbot.text :=
       "MazingiraGuard AI Liaison active. How can I assist your conservation efforts today?";
     Chatbot.videoUrl := None |}.

Definition chatView : Chatbot.View :=
  {| Chatbot.messages := [greeting]; Chatbot.inputValue := " Status? ";
     Chatbot.isLoading := false |}.



(** The built-ins at the values the sample records hold. *)
Definition builtins : App.Builtins :=
  {| App.toISOString := fun t =>
       if (t =? 1768465800000)%Z then "2026-01-15T08:30:00.000Z"
       else if (t =? 1768469400000)%Z then "2026-01-15T09:30:00.000Z"
       else "2026-01-15T10:30:00.000Z";
     App.numberToString := fun x =>
       match x with
       | Js.Num q => if Qeq_bool q binary64_0_39 then "0.39" else "0.4"
       | _ => "NaN"
       end |}.

Definition incidentA : IncidentReport :=
  {| id := "q2m7p1"; timestamp := 1768465800000; type := ILLEGAL_LOGGING;
     severity := HIGH;
     location := {| lat := Js.Num (-1286389 # 1000000);
                    lng := Js.Num (36817223 # 1000000);
                    region := "Mau Forest" |};
     description := "Fresh clearing near the river";
     confidence := Js.Num binary64_0_4;
     imageUrl := None; status := Detected; reasoningChain := None;
     groundingSources := None; feedback := None |}.

Definition incidentB : IncidentReport :=
  {| id := "z8w1c4"; timestamp := 1768469400000; type := POACHING_CAMP;
     severity := CRITICAL;
     location := {| lat := Js.Num (-13 # 10);
                    lng := Js.Num (184 # 5);
                    region := "Maasai Mara" |};
     description := "Tents and a fire pit";
     confidence := Js.Num binary64_0_4;
     imageUrl := None; status := Alerted; reasoningChain := None;
     groundingSources := None; feedback := None |}.

(** A record whose description has a double quote pair and one whose
    description runs over two lines. *)
Definition incidentQuoted : IncidentReport :=
  {| id := "m4t7y2"; timestamp := 1768469400000; type := CHARCOAL_BURNING;
     severity := MEDIUM;
     location := {| lat := Js.Num (-13 # 10);
                    lng := Js.Num (184 # 5);
                    region := "Tsavo East" |};
     description :=
       "Kiln marked " ++ String App.dquote "K7" ++ String App.dquote " by rangers";
     confidence := Js.Num binary64_0_4;
     imageUrl := None; status := Detected; reasoningChain := None;
     groundingSources := None; feedback := None |}.

Definition incidentTwoLines : IncidentReport :=
  {| id := "z8w1c4"; timestamp := 1768469400000; type := POACHING_CAMP;
     severity := CRITICAL;
     location := {| lat := Js.Num (-13 # 10);
                    lng := Js.Num (184 # 5);
                    region := "Maasai Mara" |};
     description := "Tents and a fire pit." ++ String App.lineFeed "Two vehicles.";
     confidence := Js.Num binary64_0_4;
     imageUrl := None; status := Alerted; reasoningChain := None;
     groundingSources := None; feedback := None |}.

Definition feedbackIncorrect : FieldFeedback :=
  {| confirmed := Some false; accuracyRating := Incorrect;
     groundNotes := "Licensed thinning"; updatedBy := "KWS-Alpha-9";
     fb_timestamp := 1768473000000 |}.

Definition state : App.State :=
  {| App.incidents := [incidentA; incidentB]; App.isAnalyzing := false;
     App.activeTab := App.Monitor; App.selectedRegion := "Mau Forest";
     App.agentLog := App.initialLog |}.

(** A session on the registry: a record is found, dispatched, and verified
    in the field as a false alarm. *)
Definition emptyState : App.State :=
  {| App.incidents := []; App.isAnalyzing := false;
     App.activeTab := App.Monitor; App.selectedRegion := "Mau Forest";
     App.agentLog := App.initialLog |}.

Definition record : IncidentReport :=
  materialize env "/9j/4AAQSkZJRg" "Mau Forest" atThreshold
    (extractSources None).

Definition found : Registry.Screen :=
  {| Registry.app :=
       fst (App.handleFileUpload (answers atThreshold) env
              "10:30:00" "10:30:01" "10:30:04" "/9j/4AAQSkZJRg" emptyState);
     Registry.cards := [IncidentCard.initialCard] |}.

Definition dispatched : Registry.Screen :=
  Registry.withApp
    (App.updateIncidentStatus "10:31:12" (id record) Alerted
       (Registry.app found)) found.

Definition opened : Registry.Screen :=
  Registry.withCard 0
    (IncidentCard.setShowFeedbackForm true IncidentCard.initialCard)
    dispatched.

Definition rated : Registry.Screen :=
  Registry.withCard 0
    (IncidentCard.setFeedback
       {| IncidentCard.f_confirmed := Some true;
          IncidentCard.f_rating := Incorrect;
          IncidentCard.f_notes := "" |}
       (IncidentCard.setShowFeedbackForm true IncidentCard.initialCard))
    opened.

Definition falseAlarm : FieldFeedback :=
  {| confirmed := Some true; accuracyRating := Incorrect; groundNotes := "";
     updatedBy := "Ranger-KWS-HQ"; fb_timestamp := 1768473000000 |}.

Definition verified : Registry.Screen :=
  Registry.withCard 0
    (IncidentCard.setShowFeedbackForm false
       (IncidentCard.setFeedback
          {| IncidentCard.f_confirmed := Some true;
             IncidentCard.f_rating := Incorrect;
             IncidentCard.f_notes := "" |}
          (IncidentCard.setShowFeedbackForm true IncidentCard.initialCard)))
    (Registry.withApp
       (App.handleFeedbackSubmit "12:30:00" (id record) falseAlarm
          (Registry.app rated)) rated).

(** A second record arrives after the verification. *)
Definition env2 : Entropy :=
  {| randomString := "0.8f2kq7w1zr";
     dateNow := 1768476600000;
     jitteredLat := Js.Num (-1291004 # 1000000);
     jitteredLng := Js.Num (36820115 # 1000000) |}.

Definition foundAgain : Registry.Screen :=
  {| Registry.app :=
       fst (App.handleFileUpload (answers atThreshold) env2
              "13:30:00" "13:30:01" "13:30:05" "/9j/4AAQSkZJRh"
              (Registry.app verified));
     Registry.cards := IncidentCard.initialCard :: Registry.cards verified |}.

End Samples.

(** * Properties *)

(** ** The agent log *)

Section AgentLog.
Import App.

Lemma logUpdate_take time msg prev :
  logUpdate time msg prev = take 20 (logEntry time msg :: prev).
Proof. reflexivity. Qed.

Lemma take_app_take {A} (n m : nat) (pre l : list A) :
  n <= length pre + m ->
  take n (pre ++ take m l) = take n (pre ++ l).
Proof.
  intros Hn. rewrite !take_app. f_equal.
  rewrite take_take. f_equal. lia.
Qed.

Lemma addLogs_agentLog c calls st :
  agentLog (addLogs (c :: calls) st)
  = take 20 (rev (entries (c :: calls)) ++ agentLog st).
Proof.
  revert c st. induction calls as [|c' calls IH]; intros c st.
  - reflexivity.
  - change (addLogs (c :: c' :: calls) st)
      with (addLogs (c' :: calls) (addLog (fst c) (snd c) st)).
    rewrite IH. cbn [agentLog addLog setAgentLog].
    rewrite logUpdate_take, take_app_take by lia.
    change (entries (c :: c' :: calls))
      with (logEntry (fst c) (snd c) :: entries (c' :: calls)).
    cbn [rev]. by rewrite <- app_assoc.
Qed.

(** C8.  Every [addLog] puts the new entry at the head of the agent log and
    keeps behind it the 19 entries that were newest before, in their order:
    whatever the length of the log was, it holds at most 20 entries
    afterwards, and what is dropped is the oldest end.  After any run of
    calls the log is the 20 newest entries, newest first.  Nothing but the
    log is written. *)
Theorem addLog_prepends_and_caps :
  forall (time msg : string) (st : State) (c : string * string)
         (calls : list (string * string)),
    head (agentLog (addLog time msg st)) = Some (logEntry time msg)
    /\ tail (agentLog (addLog time msg st)) = take 19 (agentLog st)
    /\ length (agentLog (addLog time msg st))
       = Nat.min 20 (S (length (agentLog st)))
    /\ length (agentLog (addLog time msg st)) <= 20
    /\ incidents (addLog time msg st) = incidents st
    /\ agentLog (addLogs (c :: calls) st)
       = take 20 (rev (entries (c :: calls)) ++ agentLog st).
Proof.
  intros time msg st c calls. cbn [agentLog addLog setAgentLog incidents].
  repeat split.
  - rewrite logUpdate_take, length_take. cbn [length]. lia.
  - rewrite logUpdate_take, length_take. lia.
  - apply addLogs_agentLog.
Qed.

End AgentLog.

(** ** Ground-truth feedback *)

Section Feedback.
Import Types App.

Lemma withFeedback_same fb inc : sameReport (withFeedback fb inc) inc.
Proof. by repeat split. Qed.

Lemma withFeedback_status fb inc :
  (accuracyRating fb = Incorrect /\ status (withFeedback fb inc) = FalsePositive)
  \/ (accuracyRating fb <> Incorrect
      /\ status (withFeedback fb inc) = ThreatConfirmed).
Proof. cbn [status withFeedback]. destruct (accuracyRating fb); auto. Qed.

(** C10.  [handleFeedbackSubmit] keeps the incident list's length and order.
    The incident at each position whose id is the submitted one carries the
    feedback afterwards, with status False Positive exactly when the rating
    is Incorrect and Threat Confirmed otherwise, and its other fields as they
    were; an incident with another id is the same record as before. *)
Theorem handleFeedbackSubmit_frame :
  forall (time id_ : string) (fb : FieldFeedback) (st : State)
         (i : nat) (inc : IncidentReport),
    incidents st !! i = Some inc ->
    length (incidents (handleFeedbackSubmit time id_ fb st))
    = length (incidents st)
    /\ exists inc',
        incidents (handleFeedbackSubmit time id_ fb st) !! i = Some inc'
        /\ (id inc = id_ ->
            feedback inc' = Some fb
            /\ ((accuracyRating fb = Incorrect /\ status inc' = FalsePositive)
                \/ (accuracyRating fb <> Incorrect
                    /\ status inc' = ThreatConfirmed))
            /\ sameReport inc' inc)
        /\ (id inc <> id_ -> inc' = inc).
Proof.
  intros time id_ fb st i inc Hi.
  cbn [handleFeedbackSubmit addLog setAgentLog setIncidents incidents].
  unfold feedbackUpdate. split; [apply length_map|].
  rewrite list_lookup_fmap, Hi. cbn.
  destruct (String.eqb_spec (id inc) id_) as [Heq|Hne].
  - eexists; split; [reflexivity|]. split; [|congruence].
    intros _. split; [reflexivity|].
    split; [apply withFeedback_status | apply withFeedback_same].
  - eexists; split; [reflexivity|]. split; [congruence|done].
Qed.

(** The theorem at a list of two incidents, the first of which is rated
    Incorrect. *)
Lemma handleFeedbackSubmit_frame_witness :
  length (incidents (handleFeedbackSubmit "10:15:00" "q2m7p1"
                       Samples.feedbackIncorrect Samples.state))
  = length (incidents Samples.state)
  /\ exists inc',
      incidents (handleFeedbackSubmit "10:15:00" "q2m7p1"
                   Samples.feedbackIncorrect Samples.state) !! 0%nat = Some inc'
      /\ (id Samples.incidentA = "q2m7p1" ->
          feedback inc' = Some Samples.feedbackIncorrect
          /\ ((accuracyRating Samples.feedbackIncorrect = Incorrect
               /\ status inc' = FalsePositive)
              \/ (accuracyRating Samples.feedbackIncorrect <> Incorrect
                  /\ status inc' = ThreatConfirmed))
          /\ sameReport inc' Samples.incidentA)
      /\ (id Samples.incidentA <> "q2m7p1" -> inc' = Samples.incidentA).
Proof.
  apply (handleFeedbackSubmit_frame "10:15:00" "q2m7p1"
           Samples.feedbackIncorrect Samples.state 0 Samples.incidentA).
  reflexivity.
Defined.

End Feedback.

(** ** Image analysis *)

Section Analysis.
Import Types GeminiService App.

(** For a number, "not below 0.4" is "at least 0.4". *)
Lemma lt_threshold_false (c : Js.number) :
  c <> Js.NaN ->
  (Js.lt c threshold = false <-> Js.le threshold c = true).
Proof.
  intros Hc. unfold threshold.
  destruct c as [q| | |]; cbn [Js.lt Js.le]; try done.
  destruct (Qlt_le_dec q binary64_0_4); done.
Qed.

Lemma truthy_nonempty (s : string) : Js.truthy s = true <-> s <> "".
Proof. destruct s; cbn; split; congruence. Qed.

Lemma analyzeImagery_resolved ai env img reg prev response :
  ai img reg prev = Js.Resolved response ->
  analyzeImagery ai env img reg prev
  = match parseText (text response) with
    | Js.Rejected e => (None, [ConsoleError "Gemini Analysis Error:" e])
    | Js.Resolved EmptyObject => (None, [])
    | Js.Resolved (Object d) =>
        if belowThreshold (Object d) then (None, [])
        else (Some (materialize env img reg d
                      (extractSources (groundingChunks response))), [])
    end.
Proof.
  intros H. unfold analyzeImagery, analysis. rewrite H. cbn [Js.await].
  destruct (text response) as [|e|d]; cbn [parseText Js.await]; try reflexivity.
  destruct (belowThreshold (Object d)); reflexivity.
Qed.

Lemma handleFileUpload_incidents ai env t1 t2 t3 img st :
  incidents (fst (handleFileUpload ai env t1 t2 t3 img st))
  = match fst (analyzeImagery ai env img (selectedRegion st) (regionHistory st)) with
    | Some r => r :: incidents st
    | None => incidents st
    end.
Proof.
  unfold handleFileUpload.
  destruct (analyzeImagery ai env img (selectedRegion st) (regionHistory st))
    as [[r|] console]; reflexivity.
Qed.

(** X18.  When the backend answers, [analyzeImagery] returns a record only
    for a parsed result whose category is a non-empty string and whose
    confidence is not below 0.4, and the upload handler stores exactly that
    record at the head of the incident list.  For a confidence that is a
    number the record is returned exactly when the category is non-empty and
    [0.4 <= confidence]: with confidence 0.39, with an empty category or with
    no parsed result it returns null and nothing is stored; with confidence
    0.40 and a non-empty category it returns the record that is stored. *)
Theorem analyzeImagery_threshold :
  forall (ai : AnalysisBackend) (env : Entropy) (t1 t2 t3 img : string)
         (st : State) (response : Response),
    ai img (selectedRegion st) (regionHistory st) = Js.Resolved response ->
    let result :=
      fst (analyzeImagery ai env img (selectedRegion st) (regionHistory st)) in
    let stored := incidents (fst (handleFileUpload ai env t1 t2 t3 img st)) in
    (forall r, result = Some r ->
       exists d, text response = Parsed d
         /\ d_type d <> "" /\ Js.lt (d_confidence d) threshold = false
         /\ type r = d_type d /\ confidence r = d_confidence d
         /\ stored = r :: incidents st)
    /\ (forall d, text response = Parsed d -> d_confidence d <> Js.NaN ->
          (is_Some result
           <-> d_type d <> "" /\ Js.le threshold (d_confidence d) = true))
    /\ (forall d, text response = Parsed d ->
          d_confidence d = Js.Num binary64_0_39 -> result = None)
    /\ (forall d, text response = Parsed d -> d_type d = "" -> result = None)
    /\ (text response = NoText -> result = None)
    /\ (forall d, text response = Parsed d ->
          d_confidence d = Js.Num binary64_0_4 -> d_type d <> "" ->
          exists r, result = Some r /\ stored = r :: incidents st)
    /\ (result = None -> stored = incidents st).
Proof.
  intros ai env t1 t2 t3 img st response Hai result stored.
  assert (Hstored : stored = match result with
                             | Some r => r :: incidents st
                             | None => incidents st
                             end)
    by apply handleFileUpload_incidents.
  assert (Hres : forall d, text response = Parsed d ->
            result = if belowThreshold (Object d) then None
                     else Some (materialize env img (selectedRegion st) d
                                  (extractSources (groundingChunks response)))).
  { intros d Hd. unfold result.
    rewrite (analyzeImagery_resolved _ _ _ _ _ _ Hai), Hd. cbn [parseText].
    destruct (belowThreshold (Object d)); reflexivity. }
  assert (Hiff : forall d, text response = Parsed d ->
            d_confidence d <> Js.NaN ->
            (is_Some result
             <-> d_type d <> "" /\ Js.le threshold (d_confidence d) = true)).
  { intros d Hd Hc. rewrite (Hres d Hd). cbn [belowThreshold].
    rewrite <- truthy_nonempty, <- (lt_threshold_false _ Hc).
    destruct (Js.truthy (d_type d)), (Js.lt (d_confidence d) threshold); cbn;
      split; intros H; try (by destruct H as [? ?]); try (by destruct H);
      eauto. }
  repeat apply conj.
  - intros r Hr. rewrite Hstored, Hr.
    assert (Hr' := Hr). unfold result in Hr'.
    rewrite (analyzeImagery_resolved _ _ _ _ _ _ Hai) in Hr'.
    destruct (text response) as [|e|d]; cbn [parseText fst] in Hr';
      try discriminate.
    exists d. split; [reflexivity|].
    destruct (belowThreshold (Object d)) eqn:Hb; [discriminate|].
    cbn [belowThreshold] in Hb. apply orb_false_elim in Hb as [Hty Hc].
    apply negb_false_iff, truthy_nonempty in Hty.
    injection Hr' as <-. done.
  - exact Hiff.
  - intros d Hd Hq. destruct result as [r|] eqn:Hr; [|reflexivity].
    exfalso. destruct (proj1 (Hiff d Hd ltac:(by rewrite Hq))) as [_ Hle];
      [by eexists|].
    rewrite Hq in Hle. revert Hle. by vm_compute.
  - intros d Hd Hty. rewrite (Hres d Hd). cbn [belowThreshold].
    by rewrite Hty.
  - intros Hd. unfold result.
    by rewrite (analyzeImagery_resolved _ _ _ _ _ _ Hai), Hd.
  - intros d Hd Hq Hty.
    destruct (proj2 (Hiff d Hd ltac:(by rewrite Hq))) as [r Hr].
    { split; [exact Hty | by rewrite Hq]. }
    exists r. split; [exact Hr|]. by rewrite Hstored, Hr.
  - intros Hr. by rewrite Hstored, Hr.
Qed.

(** The theorem at a backend that answers with confidence 0.40 and a
    category: the record is returned and stored. *)
Lemma analyzeImagery_threshold_witness :
  exists r,
    fst (analyzeImagery (Samples.answers Samples.atThreshold) Samples.env
           "AAAA" (selectedRegion Samples.state) (regionHistory Samples.state))
    = Some r
    /\ incidents (fst (handleFileUpload (Samples.answers Samples.atThreshold)
                         Samples.env "10:15:00" "10:15:01" "10:15:09" "AAAA"
                         Samples.state))
       = r :: incidents Samples.state.
Proof.
  refine (proj1 (proj2 (proj2 (proj2 (proj2 (proj2
            (analyzeImagery_threshold (Samples.answers Samples.atThreshold)
               Samples.env "10:15:00" "10:15:01" "10:15:09" "AAAA"
               Samples.state _ eq_refl))))))
            Samples.atThreshold eq_refl eq_refl _).
  discriminate.
Defined.

(** C1.  The guard [!data.type || data.confidence < 0.4] lets a result
    through whose confidence is no number: the comparison is false for it.
    When the backend answers with a category and without a confidence, the
    record is returned and stored at the head of the incident list, although
    its confidence is not at least 0.4. *)
Theorem analyzeImagery_missing_confidence :
  forall (ai : AnalysisBackend) (env : Entropy) (t1 t2 t3 img : string)
         (st : State) (response : Response) (d : AnalysisData),
    ai img (selectedRegion st) (regionHistory st) = Js.Resolved response ->
    text response = Parsed d ->
    d_type d <> "" ->
    d_confidence d = Js.NaN ->
    exists r,
      fst (analyzeImagery ai env img (selectedRegion st) (regionHistory st))
      = Some r
      /\ type r = d_type d
      /\ confidence r = Js.NaN
      /\ Js.le threshold (confidence r) = false
      /\ incidents (fst (handleFileUpload ai env t1 t2 t3 img st))
         = r :: incidents st.
Proof.
  intros ai env t1 t2 t3 img st response d Hai Hd Hty Hc.
  rewrite handleFileUpload_incidents.
  rewrite (analyzeImagery_resolved _ _ _ _ _ _ Hai), Hd. cbn [parseText].
  apply truthy_nonempty in Hty.
  cbn [belowThreshold]. rewrite Hty, Hc. cbn [negb orb Js.lt fst].
  eexists. split; [reflexivity|]. cbn [type confidence materialize].
  by rewrite Hc.
Qed.

(** The theorem at a backend that answers with a category and no
    confidence. *)
Lemma analyzeImagery_missing_confidence_witness :
  exists r,
    fst (analyzeImagery (Samples.answers Samples.noConfidence) Samples.env
           "AAAA" (selectedRegion Samples.state) (regionHistory Samples.state))
    = Some r
    /\ type r = ILLEGAL_LOGGING
    /\ confidence r = Js.NaN
    /\ Js.le threshold (confidence r) = false
    /\ incidents (fst (handleFileUpload (Samples.answers Samples.noConfidence)
                         Samples.env "10:15:00" "10:15:01" "10:15:09" "AAAA"
                         Samples.state))
       = r :: incidents Samples.state.
Proof.
  refine (analyzeImagery_missing_confidence
            (Samples.answers Samples.noConfidence) Samples.env
            "10:15:00" "10:15:01" "10:15:09" "AAAA" Samples.state _
            Samples.noConfidence eq_refl eq_refl _ eq_refl).
  discriminate.
Defined.

(** Every failure of the analysis ends in the same null as a result the
    threshold turns down; the console line is the only trace of it. *)
Lemma analyzeImagery_fails ai env img reg prev e :
  analysisFails ai img reg prev e ->
  analyzeImagery ai env img reg prev
  = (None, [ConsoleError "Gemini Analysis Error:" e]).
Proof.
  intros [H|response H Ht].
  - unfold analyzeImagery, analysis. by rewrite H.
  - by rewrite (analyzeImagery_resolved _ _ _ _ _ _ H), Ht.
Qed.

Lemma analyzeImagery_declines ai env img reg prev :
  analysisDeclines ai img reg prev ->
  analyzeImagery ai env img reg prev = (None, []).
Proof.
  intros [response data H Hp Hb].
  rewrite (analyzeImagery_resolved _ _ _ _ _ _ H), Hp.
  destruct data as [|d]; [reflexivity | by rewrite Hb].
Qed.

(** C2, as the code has it.  A transport or backend error during the
    analysis and a result below the threshold both make [analyzeImagery]
    return null; the error is written to the console and nowhere else, and
    the upload handler, which sees only the null, ends in the same state
    with the same "no critical threats" log line in both cases. *)
Theorem analyzeImagery_error_is_null :
  forall (failing declining : AnalysisBackend) (env : Entropy)
         (t1 t2 t3 img : string) (st : State) (e : Js.error),
    analysisFails failing img (selectedRegion st) (regionHistory st) e ->
    analysisDeclines declining img (selectedRegion st) (regionHistory st) ->
    analyzeImagery failing env img (selectedRegion st) (regionHistory st)
    = (None, [ConsoleError "Gemini Analysis Error:" e])
    /\ analyzeImagery declining env img (selectedRegion st) (regionHistory st)
       = (None, [])
    /\ fst (handleFileUpload failing env t1 t2 t3 img st)
       = fst (handleFileUpload declining env t1 t2 t3 img st)
    /\ head (agentLog (fst (handleFileUpload failing env t1 t2 t3 img st)))
       = Some (logEntry t3
                 "Sector scan complete. No critical threats identified.").
Proof.
  intros failing declining env t1 t2 t3 img st e Hf Hd.
  pose proof (analyzeImagery_fails _ env _ _ _ _ Hf) as Ef.
  pose proof (analyzeImagery_declines _ env _ _ _ Hd) as Ed.
  repeat split; try assumption.
  - unfold handleFileUpload. by rewrite Ef, Ed.
  - unfold handleFileUpload. by rewrite Ef.
Qed.

Lemma analyzeImagery_error_is_null_witness :
  fst (handleFileUpload Samples.unreachable Samples.env
         "10:15:00" "10:15:01" "10:15:09" "AAAA" Samples.state)
  = fst (handleFileUpload (Samples.answers Samples.belowIt) Samples.env
           "10:15:00" "10:15:01" "10:15:09" "AAAA" Samples.state).
Proof.
  refine (proj1 (proj2 (proj2
            (analyzeImagery_error_is_null Samples.unreachable
               (Samples.answers Samples.belowIt) Samples.env
               "10:15:00" "10:15:01" "10:15:09" "AAAA" Samples.state
               (Js.Err "TypeError" "Failed to fetch") _ _)))).
  - by apply fails_request.
  - by eapply declines.
Defined.

(** C2, as the claim has it, fails: an unreachable backend and a result with
    confidence 0.39 give the caller the same value. *)
Lemma analysis_error_indistinguishable :
  fst (analyzeImagery Samples.unreachable Samples.env "AAAA" "Mau Forest" [])
  = fst (analyzeImagery (Samples.answers Samples.belowIt) Samples.env
           "AAAA" "Mau Forest" []).
Proof. reflexivity. Qed.

End Analysis.

(** ** The video job *)

Section VideoJob.
Import GeminiService.

Lemma turns_S k : turns (S k) = (Waited 5000 :: Polled running :: turns k)%list.
Proof. reflexivity. Qed.

Lemma polls_app (a b : list Event) : polls (a ++ b) = polls a + polls b.
Proof. unfold polls. by rewrite List.filter_app, length_app. Qed.

Lemma polls_cons (ev : Event) (l : list Event) :
  polls (ev :: l) = (if isPoll ev then 1 else 0) + polls l.
Proof. unfold polls. cbn. by destruct (isPoll ev). Qed.

Lemma polls_turns k : polls (turns k) = k.
Proof.
  induction k as [|k IH]; [reflexivity|].
  rewrite turns_S. unfold polls in *. cbn. by rewrite IH.
Qed.

(** From query [k] on, a backend scripted to settle at query [k + j] is
    queried [j + 1] times more, each time after a wait of 5 seconds. *)
Lemma poll_scripted (final : Js.Settled Operation) (j : nat) :
  terminal final ->
  forall k fuel, j < fuel ->
    poll (scripted (k + j) final) fuel k running = Some (turns (S j), final).
Proof.
  intros Hfinal. induction j as [|j IH]; intros k fuel Hfuel.
  - destruct fuel as [|fuel]; [lia|]. cbn [poll running done].
    cbn [scripted getVideosOperation].
    replace (k <? k + 0)%nat with false
      by (symmetry; apply Nat.ltb_ge; lia).
    destruct final as [operation|e]; [|reflexivity].
    cbn in Hfinal. destruct fuel; cbn [poll]; by rewrite Hfinal.
  - destruct fuel as [|fuel]; [lia|]. cbn [poll running done].
    cbn [scripted getVideosOperation].
    replace (k <? k + S j)%nat with true
      by (symmetry; apply Nat.ltb_lt; lia).
    change (mkVeo _ _) with (scripted (k + S j) final).
    replace (k + S j)%nat with (S k + j)%nat by lia.
    rewrite IH by lia. by rewrite (turns_S (S j)).
Qed.

Lemma videoJob_scripted final n browser apiKey prompt fuel :
  terminal final -> n < fuel ->
  videoJob (scripted n final) browser apiKey prompt fuel
  = match final with
    | Js.Rejected e =>
        Some (Submitted (videoPrompt prompt) :: turns (S n), Js.Rejected e)
    | Js.Resolved finished =>
        Some ((Submitted (videoPrompt prompt) :: turns (S n)
                 ++ fst (download browser apiKey finished))%list,
              snd (download browser apiKey finished))
    end.
Proof.
  intros Hfinal Hfuel. unfold videoJob. cbn [scripted generateVideos].
  change (mkVeo _ _) with (scripted n final).
  pose proof (poll_scripted final n Hfinal 0 fuel Hfuel) as Hp.
  cbn [Nat.add] in Hp. rewrite Hp.
  destruct final as [finished|e]; [|reflexivity].
  by destruct (download browser apiKey finished).
Qed.

(** C5, as the code has it.  For a backend that reports the job running on
    the first [n] status queries and completed, with a locator, on the next
    one, [generateVideo] makes exactly [n + 1] queries, each after a wait of
    5000 ms, reads the locator the backend declared and fetches it with the
    API key appended.  The promise resolves with the object URL made for the
    downloaded blob (with null when the download fails), not with the
    locator. *)
Theorem generateVideo_polls_until_done :
  forall (browser : Browser) (apiKey prompt locator : string) (n fuel : nat),
    n < fuel ->
    locator <> "" ->
    exists result events,
      generateVideo (scripted n (Js.Resolved (completed locator)))
        browser apiKey prompt fuel = Some (Js.Resolved result, events)
      /\ polls events = S n
      /\ (exists rest,
            events = (Submitted (videoPrompt prompt) :: turns (S n)
                        ++ Fetched (locator ++ "&key=" ++ apiKey) :: rest)%list
            /\ polls rest = 0)
      /\ result = match fetchBlob browser (locator ++ "&key=" ++ apiKey) with
                  | Js.Resolved blob => Some (createObjectURL browser blob)
                  | Js.Rejected _ => None
                  end.
Proof.
  intros browser apiKey prompt locator n fuel Hfuel Hloc.
  unfold generateVideo.
  rewrite (videoJob_scripted (Js.Resolved (completed locator)) n)
    by (done || reflexivity).
  unfold download.
  change (default "" (videoUri (completed locator))) with locator.
  apply truthy_nonempty in Hloc. rewrite Hloc. cbn [negb].
  destruct (fetchBlob browser (locator ++ "&key=" ++ apiKey)) as [blob|e];
    cbn [fst snd]; eexists _, _; (split; [reflexivity|]).
  - split; [|split; [by eexists|reflexivity]].
    rewrite polls_cons, polls_app, polls_turns, polls_cons. cbn. lia.
  - split; [|split; [|reflexivity]].
    + rewrite polls_app, polls_cons, polls_app, polls_turns, !polls_cons.
      cbn. lia.
    + eexists. rewrite <- app_comm_cons, <- app_assoc. split; reflexivity.
Qed.

(** The theorem at two running reports and a third, completed one. *)
Lemma generateVideo_polls_until_done_witness :
  exists result events,
    generateVideo (scripted 2 (Js.Resolved (completed Samples.locator)))
      Samples.browser "KEY" "Mau Forest logging" 3
    = Some (Js.Resolved result, events)
    /\ polls events = 3
    /\ (exists rest,
          events = (Submitted (videoPrompt "Mau Forest logging") :: turns 3
                      ++ Fetched (Samples.locator ++ "&key=" ++ "KEY") :: rest)%list
          /\ polls rest = 0)
    /\ result
       = match fetchBlob Samples.browser (Samples.locator ++ "&key=" ++ "KEY") with
         | Js.Resolved blob => Some (createObjectURL Samples.browser blob)
         | Js.Rejected _ => None
         end.
Proof.
  apply (generateVideo_polls_until_done Samples.browser "KEY"
           "Mau Forest logging" Samples.locator 2 3).
  - lia.
  - discriminate.
Defined.

(** C5, as the claim has it, fails in its last part: after the third query
    the promise resolves with the object URL of the download, which is not
    the locator the backend declared. *)
Lemma generateVideo_resolves_object_url :
  generateVideo (scripted 2 (Js.Resolved (completed Samples.locator)))
    Samples.browser "KEY" "Mau Forest logging" 3
  = Some (Js.Resolved
            (Some "blob:https://mazingira.app/0d9c3a5e-7b1f-4c2a-9e3d-5f6a7b8c9d0e"),
          [Submitted (videoPrompt "Mau Forest logging");
           Waited 5000; Polled running;
           Waited 5000; Polled running;
           Waited 5000; Polled running;
           Fetched (Samples.locator ++ "&key=KEY")])
  /\ String.eqb "blob:https://mazingira.app/0d9c3a5e-7b1f-4c2a-9e3d-5f6a7b8c9d0e"
       Samples.locator = false.
Proof. split; reflexivity. Qed.

(** C6, as the code has it.  When the [n + 1]-th status query is rejected
    (a transport error, or a payload the client cannot read) or reports a
    finished operation without a video, [generateVideo] has made exactly
    [n + 1] queries and makes no more, fetches nothing, and resolves with
    null: the error is written to the console, nothing is raised and no
    status payload is handed to the caller. *)
Theorem generateVideo_failure_is_null :
  forall (browser : Browser) (apiKey prompt : string) (n fuel : nat),
    n < fuel ->
    (forall e,
       generateVideo (scripted n (Js.Rejected e)) browser apiKey prompt fuel
       = Some (Js.Resolved None,
               (Submitted (videoPrompt prompt) :: turns (S n)
                  ++ [Logged (ConsoleError "Video Generation Error:" e)])%list)
       /\ polls (Submitted (videoPrompt prompt) :: turns (S n)
                  ++ [Logged (ConsoleError "Video Generation Error:" e)])
          = S n)
    /\ (forall message,
          generateVideo (scripted n (Js.Resolved (failed message)))
            browser apiKey prompt fuel
          = Some (Js.Resolved None,
                  (Submitted (videoPrompt prompt) :: turns (S n))%list)
          /\ polls (Submitted (videoPrompt prompt) :: turns (S n)) = S n).
Proof.
  intros browser apiKey prompt n fuel Hfuel. split.
  - intros e. unfold generateVideo.
    rewrite (videoJob_scripted (Js.Rejected e) n) by done.
    split; [reflexivity|].
    rewrite polls_cons, polls_app, polls_turns, polls_cons. cbn. lia.
  - intros message. unfold generateVideo.
    rewrite (videoJob_scripted (Js.Resolved (failed message)) n)
      by (done || reflexivity).
    change (download browser apiKey (failed message))
      with (@nil Event, Js.Resolved (@None string)).
    cbn [fst snd]. rewrite app_nil_r. split; [reflexivity|].
    rewrite polls_cons, polls_turns. reflexivity.
Qed.

(** The theorem at a backend whose first status query fails. *)
Lemma generateVideo_failure_is_null_witness :
  generateVideo (scripted 0 (Js.Rejected (Js.Err "TypeError" "Failed to fetch")))
    Samples.browser "KEY" "Mau Forest logging" 1
  = Some (Js.Resolved None,
          [Submitted (videoPrompt "Mau Forest logging");
           Waited 5000; Polled running;
           Logged (ConsoleError "Video Generation Error:"
                     (Js.Err "TypeError" "Failed to fetch"))]).
Proof.
  refine (proj1 (proj1 (generateVideo_failure_is_null Samples.browser "KEY"
                          "Mau Forest logging" 0 1 _) _)).
  lia.
Defined.

(** C6, as the claim has it, fails: for a backend that reports the job
    failed on the first query the promise is not rejected; it resolves with
    null, and the failed status is not part of what the caller gets. *)
Lemma generateVideo_failed_job_resolves :
  generateVideo (scripted 0 (Js.Resolved (failed "Quota exceeded")))
    Samples.browser "KEY" "Mau Forest logging" 1
  = Some (Js.Resolved None,
          [Submitted (videoPrompt "Mau Forest logging");
           Waited 5000; Polled running]).
Proof. reflexivity. Qed.

End VideoJob.

(** ** The PCM decoder *)

Section Decoder.
Import Chatbot.

Lemma fold_insert_lookup {A} (g : nat -> A) (m : nat) :
  forall (a : nat) (cd : list A) (j : nat),
    fold_left (fun cd i => <[i := g i]> cd) (seq a m) cd !! j
    = if decide (a <= j < a + m /\ j < length cd) then Some (g j) else cd !! j.
Proof.
  induction m as [|m IH]; intros a cd j; cbn [seq fold_left].
  - case_decide; [lia | reflexivity].
  - rewrite IH, length_insert.
    destruct (decide (j = a)) as [->|Hne].
    + repeat case_decide; try lia.
      * by rewrite list_lookup_insert_eq by lia.
      * rewrite list_insert_ge by lia. reflexivity.
    + rewrite list_lookup_insert_ne by done.
      repeat case_decide; (reflexivity || lia).
Qed.

Lemma fold_insert_length {A} (g : nat -> A) (l : list nat) :
  forall cd : list A,
    length (fold_left (fun cd i => <[i := g i]> cd) l cd) = length cd.
Proof.
  induction l as [|i l IH]; intros cd; cbn [fold_left]; [reflexivity|].
  by rewrite IH, length_insert.
Qed.

Lemma fillChannels_seq dataInt16 numChannels frameCount (m : nat) :
  forall (a : nat) (chs : list (list Js.number)),
    a + m <= length chs ->
    exists filled,
      fillChannels dataInt16 numChannels frameCount (seq a m) chs
      = Js.Resolved filled
      /\ length filled = length chs
      /\ forall c,
           filled !! c
           = if decide (a <= c < a + m)
             then fillChannel dataInt16 numChannels c frameCount <$> chs !! c
             else chs !! c.
Proof.
  induction m as [|m IH]; intros a chs Hlen; cbn [seq fillChannels].
  - exists chs. repeat split. intros c. case_decide; [lia | reflexivity].
  - destruct (lookup_lt_is_Some_2 chs a) as [cd Hcd]; [lia|].
    rewrite Hcd.
    destruct (IH (S a)
                (<[a := fillChannel dataInt16 numChannels a frameCount cd]> chs))
      as (filled & Hrun & Hl & Hget).
    { rewrite length_insert. lia. }
    exists filled. rewrite length_insert in Hl. repeat split; try done.
    intros c. rewrite Hget.
    destruct (decide (c = a)) as [->|Hne].
    + repeat case_decide; try lia.
      rewrite list_lookup_insert_eq by lia. by rewrite Hcd.
    + rewrite list_lookup_insert_ne by done.
      repeat case_decide; (reflexivity || lia).
Qed.

(** [int16] is the two's complement reading of the 16-bit word. *)
Lemma int16_spec (lo hi : byte) :
  (-32768 <= int16 lo hi < 32768)%Z
  /\ (int16 lo hi mod 65536
      = Z.of_N (Byte.to_N lo) + 256 * Z.of_N (Byte.to_N hi))%Z.
Proof.
  unfold int16.
  pose proof (Byte.to_N_bounded lo). pose proof (Byte.to_N_bounded hi).
  set (u := (Z.of_N (Byte.to_N lo) + 256 * Z.of_N (Byte.to_N hi))%Z).
  assert (0 <= u < 65536)%Z by (unfold u; lia).
  destruct (Z.ltb_spec u 32768); split; try lia.
  - apply Z.mod_small; lia.
  - rewrite <- (Z.mod_small u 65536) at 2 by lia.
    replace (u - 65536)%Z with (u + (-1) * 65536)%Z by lia.
    apply Z.mod_add; lia.
Qed.

Example int16_lowest : int16 x00 x80 = (-32768)%Z.
Proof. reflexivity. Qed.

Example int16_highest : int16 xff x7f = 32767%Z.
Proof. reflexivity. Qed.

Lemma int16s_length (data : list byte) :
  forall n, length data = 2 * n -> length (int16s data) = n.
Proof.
  induction data as [data IH] using (induction_ltof1 _ (@length byte)).
  unfold ltof in IH. intros n Hn.
  destruct data as [|lo [|hi rest]]; cbn in *; try lia.
  destruct n as [|n]; [lia|]. f_equal. apply IH; cbn; lia.
Qed.

Lemma int16s_lookup (k : nat) :
  forall data : list byte,
    2 * k + 1 < length data ->
    int16s data !! k = Some (int16LE data (2 * k)).
Proof.
  induction k as [|k IH]; intros data Hk.
  - destruct data as [|lo [|hi rest]]; cbn in *; try lia. reflexivity.
  - destruct data as [|lo [|hi rest]]; cbn [length] in *; try lia.
    cbn [int16s]. rewrite lookup_cons. rewrite IH by lia.
    unfold int16LE. replace (2 * S k) with (S (S (2 * k))) by lia.
    reflexivity.
Qed.

Lemma div_of_nat_mul (c n : nat) :
  0 < c -> Js.div (Js.of_nat (c * n)) (Js.of_nat c) = Js.of_nat n.
Proof.
  intros Hc. unfold Js.of_nat, Js.of_Z, Js.div.
  assert (Hnz : ~ inject_Z (Z.of_nat c) == 0).
  { unfold Qeq. cbn. lia. }
  destruct (Qeq_bool (inject_Z (Z.of_nat c)) 0) eqn:Hb.
  { apply Qeq_bool_iff in Hb. contradiction. }
  f_equal.
  rewrite (Qred_complete _ (inject_Z (Z.of_nat n))).
  - apply Qred_identity. cbn. apply Z.gcd_1_r.
  - rewrite Nat2Z.inj_mul, inject_Z_mult, Qmult_comm.
    by apply Qdiv_mult_l.
Qed.

Lemma turnsBelow_of_nat (n : nat) : turnsBelow (Js.of_nat n) = n.
Proof.
  unfold turnsBelow, Js.of_nat, Js.of_Z. rewrite Qceiling_Z. apply Nat2Z.id.
Qed.

(** C4.  For a buffer of [2 * numChannels * N] bytes and a context whose
    [createBuffer] returns [numChannels] channels of [N] frames, the decoder
    resolves with a buffer of [numChannels] channels of [N] frames in which
    sample [i] of channel [c] is the signed 16-bit little-endian integer at
    byte offset [(i * numChannels + c) * 2], divided by 32768.0; for channel
    0 that is the integer at offset [i * numChannels * 2]. *)
Theorem decodeAudioData_planar :
  forall (ctx : AudioContext) (data : list byte) (rate : Js.number)
         (numChannels N : nat) (buffer0 : AudioBuffer),
    0 < numChannels ->
    length data = 2 * numChannels * N ->
    createBuffer ctx numChannels (Js.of_nat N) rate = Js.Resolved buffer0 ->
    length (channels buffer0) = numChannels ->
    Forall (fun cd => length cd = N) (channels buffer0) ->
    exists buffer,
      decodeAudioData ctx data rate numChannels = Js.Resolved buffer
      /\ length (channels buffer) = numChannels
      /\ Forall (fun cd => length cd = N) (channels buffer)
      /\ (forall c i, c < numChannels -> i < N ->
            sample buffer c i
            = Some (Js.div
                      (Js.of_Z (int16LE data ((i * numChannels + c) * 2)))
                      (Js.Num 32768)))
      /\ (forall i, i < N ->
            sample buffer 0 i
            = Some (Js.div (Js.of_Z (int16LE data (i * numChannels * 2)))
                      (Js.Num 32768))).
Proof.
  intros ctx data rate numChannels N buffer0 Hch Hlen Hctx Hchs Hframes.
  assert (Hsamples : length (int16s data) = numChannels * N)
    by (apply int16s_length; lia).
  unfold decodeAudioData, Int16Array.
  replace (length data mod 2 =? 0)%nat with true.
  2:{ symmetry. apply Nat.eqb_eq. rewrite Hlen, <- Nat.mul_assoc.
      rewrite Nat.mul_comm. apply Nat.Div0.mod_mul. }
  cbn [Js.await]. rewrite Hsamples, div_of_nat_mul, Hctx by done.
  cbn [Js.await].
  destruct (fillChannels_seq (int16s data) numChannels (Js.of_nat N)
              numChannels 0 (channels buffer0)) as (filled & -> & Hl & Hget);
    [lia|].
  cbn [Js.await]. eexists. split; [reflexivity|]. cbn [channels].
  assert (Hsample : forall c i, c < numChannels -> i < N ->
            sample {| sampleRate := sampleRate buffer0; channels := filled |} c i
            = Some (Js.div
                      (Js.of_Z (int16LE data ((i * numChannels + c) * 2)))
                      (Js.Num 32768))).
  { intros c i Hc Hi. unfold sample. cbn [channels]. rewrite Hget.
    case_decide; [|lia].
    destruct (lookup_lt_is_Some_2 (channels buffer0) c) as [cd Hcd]; [lia|].
    rewrite Hcd. cbn [fmap option_fmap option_map mbind option_bind].
    unfold fillChannel.
    rewrite fold_insert_lookup, turnsBelow_of_nat.
    pose proof (proj1 (Forall_lookup _ _) Hframes c cd Hcd) as Hcdl.
    cbn in Hcdl. case_decide; [|lia].
    unfold sampleAt. rewrite int16s_lookup by nia.
    by rewrite (Nat.mul_comm 2). }
  repeat split.
  - lia.
  - apply Forall_lookup. intros c cd Hcd.
    pose proof (lookup_lt_Some _ _ _ Hcd) as Hc. rewrite Hl in Hc.
    rewrite Hget in Hcd.
    case_decide; [|lia].
    destruct (channels buffer0 !! c) as [cd0|] eqn:Hcd0; [|discriminate].
    injection Hcd as <-. unfold fillChannel. rewrite fold_insert_length.
    exact (proj1 (Forall_lookup _ _) Hframes c cd0 Hcd0).
  - exact Hsample.
  - intros i Hi. rewrite (Hsample 0 i) by lia. by rewrite Nat.add_0_r.
Qed.

(** The theorem at two stereo frames and a browser's context. *)
Lemma decodeAudioData_planar_witness :
  exists buffer,
    decodeAudioData Samples.webAudio Samples.stereo (Js.Num 24000) 2
    = Js.Resolved buffer
    /\ length (channels buffer) = 2
    /\ Forall (fun cd => length cd = 2) (channels buffer)
    /\ (forall c i, c < 2 -> i < 2 ->
          sample buffer c i
          = Some (Js.div (Js.of_Z (int16LE Samples.stereo ((i * 2 + c) * 2)))
                    (Js.Num 32768)))
    /\ (forall i, i < 2 ->
          sample buffer 0 i
          = Some (Js.div (Js.of_Z (int16LE Samples.stereo (i * 2 * 2)))
                    (Js.Num 32768))).
Proof.
  apply (decodeAudioData_planar Samples.webAudio Samples.stereo (Js.Num 24000)
           2 2 {| sampleRate := Js.Num 24000;
                  channels := [[Js.Num 0; Js.Num 0]; [Js.Num 0; Js.Num 0]] |}).
  - lia.
  - reflexivity.
  - reflexivity.
  - reflexivity.
  - repeat constructor.
Defined.

(** C3, as the code has it.  A buffer with an odd number of bytes makes the
    [Int16Array] constructor throw a [RangeError]: the decoder rejects, for
    every channel count and whatever the context, before any buffer is
    made.  For one channel, the count the code decodes with, these are the
    lengths that are no multiple of [2 * numChannels]. *)
Theorem decodeAudioData_odd_length :
  forall (ctx : AudioContext) (data : list byte) (rate : Js.number),
    (length data mod 2 <> 0 ->
     forall numChannels,
       decodeAudioData ctx data rate numChannels
       = Js.Rejected
           (Js.Err "RangeError"
              "byte length of Int16Array should be a multiple of 2"))
    /\ (length data mod (2 * 1) <> 0 ->
        decodeAudioData ctx data rate 1
        = Js.Rejected
            (Js.Err "RangeError"
               "byte length of Int16Array should be a multiple of 2")).
Proof.
  intros ctx data rate.
  assert (H : length data mod 2 <> 0 ->
              forall n, decodeAudioData ctx data rate n
                        = Js.Rejected
                            (Js.Err "RangeError"
                               "byte length of Int16Array should be a multiple of 2")).
  { intros Hodd n. unfold decodeAudioData, Int16Array.
    apply Nat.eqb_neq in Hodd. by rewrite Hodd. }
  split; [exact H | intros Hodd; by apply H].
Qed.

(** The theorem at three bytes, decoded as the speech handler does. *)
Lemma decodeAudioData_odd_length_witness :
  decodeAudioData Samples.webAudio [x01; x00; x00]%byte (Js.Num 24000) 1
  = Js.Rejected
      (Js.Err "RangeError"
         "byte length of Int16Array should be a multiple of 2").
Proof.
  refine (proj2 (decodeAudioData_odd_length Samples.webAudio
                   [x01; x00; x00]%byte (Js.Num 24000)) _).
  discriminate.
Defined.

(** C3, as the claim has it, fails: six bytes are no multiple of
    [2 * 2], and with two channels the decoder resolves with a buffer of one
    frame per channel, the third sample left out. *)
Lemma decodeAudioData_truncated_resolves :
  length Samples.truncated mod (2 * 2) = 2
  /\ decodeAudioData Samples.webAudio Samples.truncated (Js.Num 24000) 2
     = Js.Resolved
         {| sampleRate := Js.Num 24000;
            channels := [[Js.Num (1 # 32768)]; [Js.Num (1 # 128)]] |}.
Proof. split; reflexivity. Qed.

End Decoder.

(** ** The streamed transcript *)

Section Transcript.
Import Chatbot.

Lemma append_nil_r (a : string) : a ++ "" = a.
Proof. induction a as [|c a IH]; cbn; [reflexivity | by rewrite IH]. Qed.

Lemma append_assoc (a b c : string) : (a ++ b) ++ c = a ++ (b ++ c).
Proof. induction a as [|x a IH]; cbn; [reflexivity | by rewrite IH]. Qed.

Lemma omap_fmap {A B C} (f : B -> option C) (g : A -> B) (l : list A) :
  omap f (g <$> l) = omap (fun a => f (g a)) l.
Proof.
  induction l as [|a l IH]; cbn; [reflexivity|].
  rewrite IH. reflexivity.
Qed.

Lemma applyUpdates_snoc ft (q : list Update) (u : Update) :
  forall v,
    applyUpdates ft (q ++ [u]) v
    = applyUpdates ft q v ≫= fun v' => applyUpdate ft v' u.
Proof.
  induction q as [|u' q IH]; intros v; cbn [applyUpdates app].
  - cbn. by destruct (applyUpdate ft v u).
  - destruct (applyUpdate ft v u') as [v'|]; cbn; [apply IH | reflexivity].
Qed.

Lemma setLastText_snoc ft (ms : list Message) (m : Message) :
  setLastText ft (ms ++ [m])
  = Some (ms ++ [{| role := role m; text := ft; videoUrl := videoUrl m |}])%list.
Proof.
  induction ms as [|m' ms IH]; [reflexivity|].
  cbn [app setLastText]. rewrite IH.
  destruct (ms ++ [m])%list eqn:E; [by destruct ms | reflexivity].
Qed.

Lemma schedule_hd (schedule : list bool) :
  hd false schedule = default false (schedule !! 0).
Proof. by destruct schedule. Qed.

Lemma schedule_tl (schedule : list bool) (k : nat) :
  tl schedule !! k = schedule !! S k.
Proof. by destruct schedule. Qed.

(** A render inside the loop shows the reply as accumulated so far. *)
Lemma flush_streaming (B : list Message) (r : Run) :
  streaming B r ->
  flush r
  = Some {| view := {| messages := B ++ [modelMessage (fullText r)];
                       inputValue := ""; isLoading := true |};
            queue := []; fullText := fullText r; applied := applied r;
            renders :=
              renders r
                ++ [(applied r, (B ++ [modelMessage (fullText r)])%list)];
            errors := errors r |}.
Proof.
  intros [b Hb]. unfold flush. rewrite (Hb (fullText r)). cbn.
  by destruct b.
Qed.

Lemma flushed_streaming (B : list Message) (r : Run) :
  streaming B
    {| view := {| messages := B ++ [modelMessage (fullText r)];
                  inputValue := ""; isLoading := true |};
       queue := []; fullText := fullText r; applied := applied r;
       renders :=
         renders r ++ [(applied r, (B ++ [modelMessage (fullText r)])%list)];
       errors := errors r |}.
Proof. by exists false. Qed.

Lemma addChunk_streaming (B : list Message) (c : option string) (r : Run) :
  streaming B r -> streaming B (addChunk c r).
Proof.
  intros [b Hb]. exists true. intros ft.
  cbn [addChunk enqueue queue view]. rewrite applyUpdates_snoc, (Hb ft).
  cbn [mbind option_bind applyUpdate messages inputValue isLoading].
  by rewrite setLastText_snoc.
Qed.

(** What the loop does to a run, for any schedule of renders: it adds the
    fragments to [fullText] in order, and at each await at which React
    renders, the reply shown is the text accumulated up to there. *)
Lemma consume_streaming (B : list Message) (fragments : list string) :
  forall (schedule : list bool) (r : Run),
    streaming B r ->
    exists r',
      consume (Some <$> fragments) schedule r = Some r'
      /\ streaming B r'
      /\ fullText r' = fullText r ++ joined fragments
      /\ applied r' = applied r + length fragments
      /\ errors r' = errors r
      /\ renders r'
         = (renders r
              ++ omap (fun k =>
                         if default false (schedule !! k)
                         then Some (applied r + k,
                                    (B ++ [modelMessage
                                             (fullText r
                                                ++ joined (take k fragments))])%list)
                         else None)
                   (seq 0 (S (length fragments))))%list.
Proof.
  induction fragments as [|f rest IH]; intros schedule r Hr.
  - cbn [fmap list_fmap consume joined fold_right length seq omap list_omap
           take].
    rewrite schedule_hd, Nat.add_0_r, !append_nil_r.
    destruct (default false (schedule !! 0)); cbn [awaiting].
    + rewrite (flush_streaming B r Hr). cbn [mbind option_bind].
      eexists. split; [reflexivity|].
      split; [apply flushed_streaming|]. by cbn.
    + cbn [mbind option_bind]. exists r. rewrite app_nil_r. by cbn.
  - cbn [fmap list_fmap consume].
    set (shown := fun k : nat => _).
    assert (Hnext : forall r1, streaming B r1 ->
              fullText r1 = fullText r -> applied r1 = applied r ->
              errors r1 = errors r ->
              exists r',
                consume (Some <$> rest) (tl schedule) (addChunk (Some f) r1)
                = Some r'
                /\ streaming B r'
                /\ fullText r' = fullText r ++ joined (f :: rest)
                /\ applied r' = applied r + length (f :: rest)
                /\ errors r' = errors r
                /\ renders r'
                   = (renders r1 ++ omap shown (seq 1 (S (length rest))))%list).
    { intros r1 H1 Hft Hap Her.
      destruct (IH (tl schedule) (addChunk (Some f) r1)
                  (addChunk_streaming B (Some f) r1 H1))
        as (r' & Hrun & Hs & Hft' & Hap' & Her' & Hre').
      exists r'. split; [exact Hrun|]. split; [exact Hs|].
      cbn [addChunk enqueue fullText applied errors renders default] in *.
      rewrite Hft', Hap', Her', Hre', Hft, Hap, Her.
      cbn [joined fold_right length]. rewrite append_assoc.
      repeat split; try lia.
      f_equal. rewrite <- fmap_S_seq, omap_fmap.
      apply list_omap_ext, Forall2_same_length_lookup_2; [done|].
      intros i x y Hx Hy. rewrite Hx in Hy. injection Hy as <-.
      unfold shown. rewrite schedule_tl.
      cbn [take joined fold_right]. rewrite append_assoc.
      by replace (S (applied r) + x) with (applied r + S x) by lia. }
    cbn [seq omap list_omap]. change (seq 1 (S (length rest)))
      with (seq 1 (S (length rest))).
    rewrite schedule_hd. unfold shown at 1.
    destruct (default false (schedule !! 0)); cbn [awaiting].
    + rewrite (flush_streaming B r Hr). cbn [mbind option_bind].
      destruct (Hnext _ (flushed_streaming B r)) as (r' & -> & Hs & H);
        try reflexivity.
      exists r'. split; [reflexivity|]. split; [exact Hs|].
      destruct H as (-> & -> & -> & ->). repeat split.
      cbn [renders take joined fold_right].
      rewrite append_nil_r, Nat.add_0_r, <- app_assoc. reflexivity.
    + cbn [mbind option_bind].
      destruct (Hnext r Hr) as (r' & -> & Hs & H); try reflexivity.
      exists r'. split; [reflexivity|]. split; [exact Hs|].
      by destruct H as (-> & -> & -> & ->).
Qed.

Lemma flush_done (B : list Message) (r : Run) :
  streaming B r ->
  flush (enqueue (SetIsLoading false) r)
  = Some {| view := {| messages := B ++ [modelMessage (fullText r)];
                       inputValue := ""; isLoading := false |};
            queue := []; fullText := fullText r; applied := applied r;
            renders :=
              renders r
                ++ [(applied r, (B ++ [modelMessage (fullText r)])%list)];
            errors := errors r |}.
Proof.
  intros [b Hb]. unfold flush. cbn [enqueue queue view fullText].
  rewrite applyUpdates_snoc, (Hb (fullText r)). cbn.
  by destruct b.
Qed.



End Transcript.

(** ** CSV export *)

Section CsvExport.
Import Types App.

Lemma count_app (c : ascii) (a b : string) :
  Js.count c (a ++ b) = Js.count c a + Js.count c b.
Proof.
  induction a as [|x a IH]; cbn [String.append Js.count]; [reflexivity|].
  rewrite IH. lia.
Qed.

Lemma split_length (c : ascii) (s : string) :
  length (Js.split c s) = S (Js.count c s).
Proof.
  induction s as [|a s IH]; cbn [Js.split Js.count]; [reflexivity|].
  destruct (Ascii.eqb a c); cbn [length]; [by rewrite IH|].
  destruct (Js.split c s); cbn [length] in *; lia.
Qed.

Lemma split_free (c : ascii) (s : string) :
  Js.count c s = 0 -> Js.split c s = [s].
Proof.
  induction s as [|a s IH]; cbn [Js.split Js.count]; [reflexivity|].
  destruct (Ascii.eqb a c); [discriminate|]. intros H. by rewrite IH.
Qed.

Lemma split_app (c : ascii) (a b : string) :
  Js.count c a = 0 ->
  Js.split c (a ++ String c b) = a :: Js.split c b.
Proof.
  induction a as [|x a IH]; cbn [String.append Js.split Js.count].
  - by rewrite Ascii.eqb_refl.
  - destruct (Ascii.eqb x c); [discriminate|]. intros H. by rewrite IH.
Qed.

Lemma split_join (c : ascii) (r : string) (rows : list string) :
  Forall (fun r => Js.count c r = 0) (r :: rows) ->
  Js.split c (Js.join (String c "") (r :: rows)) = r :: rows.
Proof.
  revert r. induction rows as [|r' rows IH]; intros r Hfree.
  - apply split_free. by inversion Hfree.
  - change (Js.join (String c "") (r :: r' :: rows))
      with (r ++ String c (Js.join (String c "") (r' :: rows))).
    inversion Hfree; subst. rewrite split_app by done. f_equal. by apply IH.
Qed.

Lemma count_join (c : ascii) (sep : string) (xs : list string) :
  Js.count c (Js.join sep xs)
  = sum_list_with (Js.count c) xs + (length xs - 1) * Js.count c sep.
Proof.
  induction xs as [|x xs IH]; [reflexivity|].
  destruct xs as [|y xs].
  - cbn. lia.
  - change (Js.join sep (x :: y :: xs)) with (x ++ sep ++ Js.join sep (y :: xs)).
    rewrite !count_app, IH. cbn [sum_list_with length].
    replace (S (length xs) - 1) with (length xs) by lia.
    replace (S (S (length xs)) - 1) with (S (length xs)) by lia.
    cbn [Nat.mul]. lia.
Qed.

Lemma sum_list_free (c : ascii) (cells : list string) :
  Forall (fun cell => Js.count c cell = 0) cells ->
  sum_list_with (Js.count c) cells = 0.
Proof.
  induction 1 as [|cell cells H _ IH]; [reflexivity|].
  cbn [sum_list_with]. lia.
Qed.

Lemma unescaped_escaped (d : string) : unescaped (escaped d) = d.
Proof.
  unfold escaped. induction d as [|a d IH]; [reflexivity|].
  cbn [Js.replace_all]. destruct (Ascii.eqb_spec a dquote) as [->|Hne].
  - cbn. by rewrite IH.
  - cbn [unescaped]. apply Ascii.eqb_neq in Hne. by rewrite Hne, IH.
Qed.

Lemma count_escaped (d : string) :
  Js.count dquote (escaped d) = 2 * Js.count dquote d.
Proof.
  unfold escaped. induction d as [|a d IH]; [reflexivity|].
  cbn [Js.replace_all Js.count]. destruct (Ascii.eqb a dquote) eqn:E.
  - cbn. rewrite IH. lia.
  - cbn [Js.count]. rewrite E, IH. lia.
Qed.

Lemma paired_escaped (d : string) : paired (escaped d) = true.
Proof.
  unfold escaped. induction d as [|a d IH]; [reflexivity|].
  cbn [Js.replace_all]. destruct (Ascii.eqb a dquote) eqn:E.
  - cbn. exact IH.
  - cbn [paired]. by rewrite E.
Qed.

Lemma count_row (rt : Builtins) (r : IncidentReport) :
  Js.count lineFeed (Js.join "," (row rt r))
  = sum_list_with (Js.count lineFeed) (row rt r).
Proof. rewrite count_join. cbn [Js.count Ascii.eqb]. cbn. lia. Qed.

Lemma count_csvText (rt : Builtins) (r1 r2 : IncidentReport) :
  Js.count lineFeed (csvText rt [r1; r2])
  = 2 + sum_list_with (Js.count lineFeed) (row rt r1 ++ row rt r2).
Proof.
  unfold csvText, csvRows. rewrite count_join.
  cbn [map sum_list_with length].
  rewrite !count_row, sum_list_with_app.
  change (Js.count lineFeed (Js.join "," headers)) with 0.
  change (Js.count lineFeed (String lineFeed "")) with 1.
  lia.
Qed.

(** C9, as the code has it.  For a list of two records the export joins
    exactly three rows with line feeds: the header
    [ID,Timestamp,Type,Severity,Region,Status,Confidence,Description] and
    one row per record; the link holds this text, URI-encoded.  The text has
    three lines and one more for every line feed inside a cell, so exactly
    three when no cell has one.  The last cell of a row is the description
    between double quotes, with each of its double quotes written twice. *)
Theorem handleExportCSV_two_records :
  forall (rt : Builtins) (time : string) (now : Z) (st : State)
         (r1 r2 : IncidentReport),
    incidents st = [r1; r2] ->
    (exists link,
       snd (handleExportCSV rt time now st) = Some link
       /\ href link
          = Js.encodeURI
              ("data:text/csv;charset=utf-8," ++ csvText rt [r1; r2]))
    /\ csvRows rt [r1; r2]
       = ["ID,Timestamp,Type,Severity,Region,Status,Confidence,Description";
          Js.join "," (row rt r1); Js.join "," (row rt r2)]
    /\ length (lines (csvText rt [r1; r2]))
       = 3 + sum_list_with (Js.count lineFeed) (row rt r1 ++ row rt r2)
    /\ (Forall (fun cell => Js.count lineFeed cell = 0)
          (row rt r1 ++ row rt r2)%list ->
        lines (csvText rt [r1; r2]) = csvRows rt [r1; r2]
        /\ length (lines (csvText rt [r1; r2])) = 3)
    /\ (forall r,
          last (row rt r) = Some (quoted (description r))
          /\ quoted (description r)
             = String dquote (escaped (description r) ++ String dquote "")
          /\ unescaped (escaped (description r)) = description r
          /\ Js.count dquote (escaped (description r))
             = 2 * Js.count dquote (description r)
          /\ paired (escaped (description r)) = true).
Proof.
  intros rt time now st r1 r2 Hst.
  assert (Hlen : length (lines (csvText rt [r1; r2]))
                 = 3 + sum_list_with (Js.count lineFeed) (row rt r1 ++ row rt r2)).
  { unfold lines. rewrite split_length, count_csvText. lia. }
  split; [|split; [reflexivity|split; [exact Hlen|split]]].
  - unfold handleExportCSV. rewrite Hst. eexists. split; reflexivity.
  - intros Hfree. split.
    + unfold lines, csvText, csvRows. cbn [map]. apply split_join.
      apply Forall_app in Hfree as [H1 H2].
      repeat constructor;
        rewrite ?count_row; auto using sum_list_free.
    + rewrite Hlen, (sum_list_free _ _ Hfree). lia.
  - intros r. repeat split;
      auto using unescaped_escaped, count_escaped, paired_escaped.
Qed.

(** The theorem at two records, one description with a quoted name in it. *)
Lemma handleExportCSV_two_records_witness :
  lines (csvText Samples.builtins [Samples.incidentA; Samples.incidentQuoted])
  = csvRows Samples.builtins [Samples.incidentA; Samples.incidentQuoted]
  /\ length (lines (csvText Samples.builtins
                      [Samples.incidentA; Samples.incidentQuoted])) = 3.
Proof.
  refine (proj1 (proj2 (proj2 (proj2
            (handleExportCSV_two_records Samples.builtins "10:40:00"
               1768473000000
               {| incidents := [Samples.incidentA; Samples.incidentQuoted];
                  isAnalyzing := false; activeTab := Reports;
                  selectedRegion := "Mau Forest"; agentLog := initialLog |}
               Samples.incidentA Samples.incidentQuoted eq_refl)))) _).
  repeat constructor.
Defined.

(** C9, as the claim has it, fails in its count of lines: with a
    description that runs over two lines, the export of two records has
    four lines. *)
Lemma export_description_with_line_feed :
  length (lines (csvText Samples.builtins
                   [Samples.incidentA; Samples.incidentTwoLines])) = 4
  /\ Js.count lineFeed (description Samples.incidentTwoLines) = 1.
Proof. split; reflexivity. Qed.

End CsvExport.


(** * Further properties *)

(** ** The incident store *)

Section IncidentStore.
Import Types App.

Lemma withStatus_same s inc : sameReport (withStatus s inc) inc.
Proof. by repeat split. Qed.

(** X1.  [updateIncidentStatus] keeps the incident list's length and order:
    an incident with the given id gets the new status and keeps every other
    field, its feedback included; an incident with another id is the record
    it was.  The log gets the entry about the first five characters of the
    id. *)
Theorem updateIncidentStatus_frame :
  forall (time id_ : string) (s : FieldStatus) (st : State)
         (i : nat) (inc : IncidentReport),
    incidents st !! i = Some inc ->
    length (incidents (updateIncidentStatus time id_ s st))
    = length (incidents st)
    /\ (exists inc',
          incidents (updateIncidentStatus time id_ s st) !! i = Some inc'
          /\ (id inc = id_ ->
              status inc' = s /\ feedback inc' = feedback inc
              /\ sameReport inc' inc)
          /\ (id inc <> id_ -> inc' = inc))
    /\ head (agentLog (updateIncidentStatus time id_ s st))
       = Some (logEntry time
                 ("Incident " ++ Js.prefix 5 id_ ++ " status changed to "
                    ++ FieldStatus_string s ++ ".")).
Proof.
  intros time id_ s st i inc Hi.
  cbn [updateIncidentStatus addLog setAgentLog setIncidents incidents agentLog].
  split; [apply length_map|]. split; [|reflexivity].
  rewrite list_lookup_fmap, Hi. cbn.
  destruct (String.eqb_spec (id inc) id_) as [Heq|Hne].
  - eexists; split; [reflexivity|]. split; [|congruence].
    intros _. repeat split.
  - eexists; split; [reflexivity|]. split; [congruence|done].
Qed.

Lemma updateIncidentStatus_frame_witness :
  exists inc',
    incidents (updateIncidentStatus "10:15:00" "q2m7p1" Alerted Samples.state)
      !! 0%nat = Some inc'
    /\ status inc' = Alerted
    /\ sameReport inc' Samples.incidentA.
Proof.
  destruct (updateIncidentStatus_frame "10:15:00" "q2m7p1" Alerted
              Samples.state 0 Samples.incidentA eq_refl)
    as (_ & (inc' & Hi & Hsame & _) & _).
  exists inc'. split; [exact Hi|].
  destruct (Hsame eq_refl) as (Hs & _ & Hr). by split.
Defined.

Lemma map_unmatched (id_ : string) (f : IncidentReport -> IncidentReport)
    (incs : list IncidentReport) :
  Forall (fun inc => id inc <> id_) incs ->
  map (fun inc => if String.eqb (id inc) id_ then f inc else inc) incs = incs.
Proof.
  induction 1 as [|inc incs Hne _ IH]; [reflexivity|].
  cbn [map]. rewrite IH. apply String.eqb_neq in Hne. by rewrite Hne.
Qed.

(** X2.  For an id that no incident has, [handleFeedbackSubmit] and
    [updateIncidentStatus] change no incident; both still write their log
    entry, as if the id had been found. *)
Theorem unknown_id_changes_nothing :
  forall (time id_ : string) (fb : FieldFeedback) (s : FieldStatus)
         (st : State),
    Forall (fun inc => id inc <> id_) (incidents st) ->
    incidents (handleFeedbackSubmit time id_ fb st) = incidents st
    /\ incidents (updateIncidentStatus time id_ s st) = incidents st
    /\ head (agentLog (handleFeedbackSubmit time id_ fb st))
       = Some (logEntry time
                 ("Feedback received for " ++ Js.prefix 5 id_
                    ++ ". Agent thought signatures updating."))
    /\ head (agentLog (updateIncidentStatus time id_ s st))
       = Some (logEntry time
                 ("Incident " ++ Js.prefix 5 id_ ++ " status changed to "
                    ++ FieldStatus_string s ++ ".")).
Proof.
  intros time id_ fb s st Hnone.
  cbn [handleFeedbackSubmit updateIncidentStatus addLog setAgentLog
       setIncidents incidents agentLog].
  unfold feedbackUpdate. rewrite !map_unmatched by done. by repeat split.
Qed.

Lemma unknown_id_changes_nothing_witness :
  incidents (handleFeedbackSubmit "10:15:00" "nosuch"
               Samples.feedbackIncorrect Samples.state)
  = incidents Samples.state.
Proof.
  refine (proj1 (unknown_id_changes_nothing "10:15:00" "nosuch"
                   Samples.feedbackIncorrect Alerted Samples.state _)).
  repeat constructor; discriminate.
Defined.

(** The log after three calls of [addLog]. *)
Lemma logUpdate_thrice t1 m1 t2 m2 t3 m3 (log : list string) :
  logUpdate t3 m3 (logUpdate t2 m2 (logUpdate t1 m1 log))
  = take 20 ([logEntry t3 m3; logEntry t2 m2; logEntry t1 m1] ++ log).
Proof.
  rewrite !logUpdate_take.
  change (take 20 (logEntry t3 m3
                     :: take 20 (logEntry t2 m2 :: take 20 (logEntry t1 m1 :: log))))
    with (take 20 ([logEntry t3 m3]
                     ++ take 20 ([logEntry t2 m2]
                                   ++ take 20 (logEntry t1 m1 :: log)))).
  rewrite (take_app_take 20 20 [logEntry t2 m2]) by (cbn; lia).
  rewrite (take_app_take 20 20 [logEntry t3 m3]) by (cbn; lia).
  reflexivity.
Qed.

(** Once the file is read, [handleFileUpload] ends with the analyzing flag
    cleared and three more entries in the capped log, with or without a new
    record. *)
Lemma handleFileUpload_settled
    (ai : GeminiService.AnalysisBackend) (env : GeminiService.Entropy)
    (t1 t2 t3 img : string) (st : State) :
  let st' := fst (handleFileUpload ai env t1 t2 t3 img st) in
  let ingest :=
    logEntry t1 ("Ingesting satellite sector imagery for "
                   ++ selectedRegion st ++ "...") in
  let analyze :=
    logEntry t2 "Analyzing change signatures & grounding facts..." in
  isAnalyzing st' = false
  /\ selectedRegion st' = selectedRegion st
  /\ ((incidents st' = incidents st
       /\ activeTab st' = activeTab st
       /\ agentLog st'
          = take 20
              ([logEntry t3
                  "Sector scan complete. No critical threats identified.";
                analyze; ingest] ++ agentLog st))
      \/ (exists r,
            incidents st' = r :: incidents st
            /\ activeTab st' = Reports
            /\ status r = Detected
            /\ feedback r = None
            /\ region (location r) = selectedRegion st
            /\ imageUrl r = Some ("data:image/jpeg;base64," ++ img)
            /\ agentLog st'
               = take 20
                   ([logEntry t3 ("ALERT: " ++ type r
                                    ++ " detected. Priority: "
                                    ++ severity r ++ ".");
                     analyze; ingest] ++ agentLog st))).
Proof.
  cbn zeta. unfold handleFileUpload.
  destruct (GeminiService.analyzeImagery ai env img (selectedRegion st)
              (regionHistory st)) as [[r|] console] eqn:E.
  - cbn [fst isAnalyzing selectedRegion setIsAnalyzing setActiveTab addLog
         setAgentLog setIncidents incidents activeTab agentLog].
    split; [reflexivity|]. split; [reflexivity|]. right. exists r.
    rewrite logUpdate_thrice.
    assert (Hr : status r = Detected /\ feedback r = None
                 /\ region (location r) = selectedRegion st
                 /\ imageUrl r = Some ("data:image/jpeg;base64," ++ img)).
    { unfold GeminiService.analyzeImagery, GeminiService.analysis in E.
      destruct (ai img (selectedRegion st) (regionHistory st)) as [resp|e];
        cbn [Js.await] in E; [|discriminate].
      destruct (GeminiService.parseText (GeminiService.text resp)) as [d|e];
        cbn [Js.await] in E; [|discriminate].
      destruct (GeminiService.belowThreshold d); [discriminate|].
      destruct d as [|d]; [discriminate|].
      injection E as <- _. by split_and!. }
    destruct Hr as (? & ? & ? & ?). by split_and!.
  - cbn [fst isAnalyzing selectedRegion setIsAnalyzing setActiveTab addLog
         setAgentLog setIncidents incidents activeTab agentLog].
    split; [reflexivity|]. split; [reflexivity|]. left.
    rewrite logUpdate_thrice. by split_and!.
Qed.

(** X3.  [handleFileUpload] never changes the selected region.  Without a
    file or without an agent it does nothing at all.  When the read of the
    file fails, the callback throws a TypeError before its [try]: the
    analyzing flag stays set, the log has its one entry about the ingestion,
    and no incident is added.  When the read gives a data URL, nothing is
    thrown, whatever the backend does: the flag is cleared and three entries
    are added to the capped log; either no incident is added, the tab stays
    and the last entry says that no threat was found, or exactly one record
    is put at the head of the list, newly detected, without feedback, of the
    selected region and with the image that stands between the first and the
    second comma of the data URL, the tab turns to the reports and the last
    entry is the alert for the record. *)
Theorem handleFileUpload_outcomes :
  forall (file : option File) (agentRef : option Agent)
         (env : GeminiService.Entropy) (t1 t2 t3 : string) (st : State),
    let out := handleFileUploadEvent file agentRef env t1 t2 t3 st in
    let st' := fst (fst out) in
    let uncaught := snd out in
    let ingest :=
      logEntry t1 ("Ingesting satellite sector imagery for "
                     ++ selectedRegion st ++ "...") in
    let analyze :=
      logEntry t2 "Analyzing change signatures & grounding facts..." in
    selectedRegion st' = selectedRegion st
    /\ (file = None \/ agentRef = None -> out = (st, [], None))
    /\ (forall f agent,
          file = Some f -> agentRef = Some agent -> readerResult f = None ->
          (exists message, uncaught = Some (Js.Err "TypeError" message))
          /\ isAnalyzing st' = true
          /\ incidents st' = incidents st
          /\ activeTab st' = activeTab st
          /\ agentLog st' = take 20 (ingest :: agentLog st))
    /\ (forall f agent result,
          file = Some f -> agentRef = Some agent ->
          readerResult f = Some result ->
          uncaught = None
          /\ isAnalyzing st' = false
          /\ ((incidents st' = incidents st
               /\ activeTab st' = activeTab st
               /\ agentLog st'
                  = take 20
                      ([logEntry t3
                          "Sector scan complete. No critical threats identified.";
                        analyze; ingest] ++ agentLog st))
              \/ (exists r,
                    incidents st' = r :: incidents st
                    /\ activeTab st' = Reports
                    /\ status r = Detected
                    /\ feedback r = None
                    /\ region (location r) = selectedRegion st
                    /\ imageUrl r
                       = Some ("data:image/jpeg;base64,"
                                 ++ interpolated (Js.split "," result !! 1%nat))
                    /\ agentLog st'
                       = take 20
                           ([logEntry t3 ("ALERT: " ++ type r
                                            ++ " detected. Priority: "
                                            ++ severity r ++ ".");
                             analyze; ingest] ++ agentLog st)))).
Proof.
  intros file agentRef env t1 t2 t3 st. cbn zeta.
  unfold handleFileUploadEvent.
  destruct file as [f|], agentRef as [agent|];
    try (split_and!; [reflexivity | reflexivity | discriminate..]).
  - destruct (readerResult f) as [result|] eqn:Hread.
    + pose proof (handleFileUpload_settled
                    (fun _ => agent (Js.split "," result !! 1%nat)) env
                    t1 t2 t3 (interpolated (Js.split "," result !! 1%nat)) st)
        as H.
      cbn zeta in H.
      destruct (handleFileUpload _ env t1 t2 t3 _ st) as [st' console].
      cbn [fst snd] in *. destruct H as (Hflag & Hregion & H).
      split_and!; [exact Hregion | by intros [|] | |].
      * intros f' agent' [= <-] _ Hnull. congruence.
      * intros f' agent' result' [= <-] _ Hresult.
        rewrite Hread in Hresult. injection Hresult as <-. by split_and!.
    + cbn [fst snd selectedRegion addLog setAgentLog setIsAnalyzing
           isAnalyzing incidents activeTab agentLog].
      split_and!; [reflexivity | by intros [|] | |].
      * intros f' agent' _ _ _. rewrite logUpdate_take.
        split_and!; [by eexists | done..].
      * intros f' agent' result' [= <-] _ Hresult. congruence.
Qed.

End IncidentStore.


(** ** More on the CSV export *)

Section CsvRows.
Import Types App.

Lemma count_rows (rt : Builtins) (incs : list IncidentReport) :
  sum_list_with (Js.count lineFeed)
    (map (fun r => Js.join "," r) (map (row rt) incs))
  = sum_list_with (fun r => sum_list_with (Js.count lineFeed) (row rt r)) incs.
Proof.
  induction incs as [|r incs IH]; [reflexivity|].
  cbn [map sum_list_with]. by rewrite count_row, IH.
Qed.

Lemma count_csvText_any (rt : Builtins) (incs : list IncidentReport) :
  Js.count lineFeed (csvText rt incs)
  = length incs
    + sum_list_with
        (fun r => sum_list_with (Js.count lineFeed) (row rt r)) incs.
Proof.
  unfold csvText, csvRows. rewrite count_join.
  cbn [sum_list_with length]. rewrite !length_map.
  change (Js.count lineFeed (Js.join "," headers)) with 0.
  change (Js.count lineFeed (String lineFeed "")) with 1.
  rewrite count_rows. lia.
Qed.

(** X4.  For every list of records the export joins one header row and one
    row per record; its text has one line per row and one more for every
    line feed inside a cell, and when no cell has a line feed its lines are
    the rows.  An empty list exports nothing: no link is made and nothing is
    logged. *)
Theorem csvText_lines :
  forall (rt : Builtins) (time : string) (now : Z) (st : State),
    length (csvRows rt (incidents st)) = S (length (incidents st))
    /\ length (lines (csvText rt (incidents st)))
       = S (length (incidents st))
         + sum_list_with
             (fun r => sum_list_with (Js.count lineFeed) (row rt r))
             (incidents st)
    /\ (Forall (fun r => Forall (fun cell => Js.count lineFeed cell = 0)
                           (row rt r)) (incidents st) ->
        lines (csvText rt (incidents st)) = csvRows rt (incidents st))
    /\ (incidents st = [] -> handleExportCSV rt time now st = (st, None)).
Proof.
  intros rt time now st. repeat split.
  - unfold csvRows. cbn [length]. by rewrite !length_map.
  - unfold lines. rewrite split_length, count_csvText_any. lia.
  - intros Hfree. unfold lines, csvText, csvRows. apply split_join.
    constructor; [reflexivity|].
    rewrite List.map_map. apply Forall_map.
    eapply Forall_impl; [exact Hfree|]. intros r Hr. cbn beta.
    rewrite count_row. by apply sum_list_free.
  - intros Hempty. unfold handleExportCSV. by rewrite Hempty.
Qed.

Lemma csvText_lines_witness :
  lines (csvText Samples.builtins (incidents Samples.state))
  = csvRows Samples.builtins (incidents Samples.state).
Proof.
  refine (proj1 (proj2 (proj2
            (csvText_lines Samples.builtins "10:40:00" 1768473000000
               Samples.state))) _).
  repeat constructor.
Defined.

Lemma readPlain_cell (c rest : string) :
  Js.count "," c = 0 ->
  readPlain (c ++ String "," rest) = (c, Some rest).
Proof.
  induction c as [|a c IH]; cbn [String.append readPlain Js.count].
  - reflexivity.
  - destruct (Ascii.eqb a ","); [discriminate|]. intros H.
    by rewrite IH.
Qed.

Lemma readRow_plain (fuel : nat) (c rest : string) :
  plainCell c ->
  readRow (S fuel) (c ++ "," ++ rest) = cons c <$> readRow fuel rest.
Proof.
  intros [Hcomma Hquote]. change ("," ++ rest) with (String "," rest).
  destruct c as [|a c].
  - reflexivity.
  - change (String a c ++ String "," rest)
      with (String a (c ++ String "," rest)).
    cbn [readRow]. rewrite Hquote.
    change (String a (c ++ String "," rest))
      with (String a c ++ String "," rest).
    by rewrite readPlain_cell.
Qed.

Lemma readQuotedBody_escaped (d tail : string) :
  match tail with
  | String b _ => Ascii.eqb b dquote = false
  | EmptyString => True
  end ->
  readQuotedBody (escaped d ++ String dquote tail) = Some (d, tail).
Proof.
  intros Htail. unfold escaped. induction d as [|a d IH].
  - cbn. destruct tail as [|b tail]; [reflexivity | by rewrite Htail].
  - cbn [Js.replace_all]. destruct (Ascii.eqb_spec a dquote) as [->|Hne].
    + cbn. by rewrite IH.
    + cbn [String.append readQuotedBody].
      apply Ascii.eqb_neq in Hne. by rewrite Hne, IH.
Qed.

(** X5.  Reading an exported row back cell by cell gives the record's eight
    values, the description exactly as it was, commas, double quotes and line
    feeds included, provided none of the seven cells before it holds a comma
    or opens with a double quote: those cells are written as they are. *)
Theorem readRow_row :
  forall (rt : Builtins) (r : IncidentReport),
    Forall plainCell (take 7 (row rt r)) ->
    readRow 8 (Js.join "," (row rt r)) = Some (rowValues rt r).
Proof.
  intros rt r Hplain. unfold row in *. cbn [take] in Hplain.
  repeat match goal with
         | H : Forall _ (_ :: _) |- _ => apply Forall_cons in H as [? H]
         end.
  cbn [Js.join].
  rewrite !readRow_plain by assumption.
  cbn [readRow quoted].
  rewrite Ascii.eqb_refl, (readQuotedBody_escaped _ "") by done.
  reflexivity.
Qed.

Lemma readRow_row_witness :
  readRow 8 (Js.join "," (row Samples.builtins Samples.incidentQuoted))
  = Some (rowValues Samples.builtins Samples.incidentQuoted).
Proof.
  apply (readRow_row Samples.builtins Samples.incidentQuoted).
  repeat constructor.
Defined.

End CsvRows.


(** ** More on the video job *)

Section VideoJobShape.
Import GeminiService.

Lemma polls_pollingOf (ops : list Operation) : polls (pollingOf ops) = length ops.
Proof.
  induction ops as [|op ops IH]; [reflexivity|].
  change (pollingOf (op :: ops))
    with (Waited 5000 :: Polled op :: pollingOf ops).
  rewrite !polls_cons, IH. reflexivity.
Qed.

(** The loop asks only about operations that are not done, at most [fuel]
    times, and hands on only an operation that is done. *)
Lemma poll_shape (veo : VeoBackend) (fuel : nat) :
  forall (n : nat) (operation : Operation) events r,
    poll veo fuel n operation = Some (events, r) ->
    exists ops,
      events = pollingOf ops
      /\ Forall (fun op => done op = false) ops
      /\ length ops <= fuel
      /\ (forall finished, r = Js.Resolved finished -> done finished = true).
Proof.
  induction fuel as [|fuel IH]; intros n operation events r Hpoll.
  - cbn [poll] in Hpoll. destruct (done operation) eqn:Hdone; [|discriminate].
    injection Hpoll as <- <-. exists [].
    split_and!; [reflexivity|constructor|cbn; lia|].
    by intros finished [= <-].
  - cbn [poll] in Hpoll. destruct (done operation) eqn:Hdone.
    { injection Hpoll as <- <-. exists [].
      split_and!; [reflexivity|constructor|cbn; lia|].
      by intros finished [= <-]. }
    destruct (getVideosOperation veo n operation) as [next|e].
    + destruct (poll veo fuel (S n) next) as [[events' r']|] eqn:Hnext;
        [|discriminate].
      injection Hpoll as <- <-.
      destruct (IH _ _ _ _ Hnext) as (ops & -> & Hops & Hlen & Hfin).
      exists (operation :: ops).
      split_and!; [reflexivity|by constructor|cbn [length]; lia|exact Hfin].
    + injection Hpoll as <- <-. exists [operation].
      split_and!; [reflexivity|by repeat constructor|cbn; lia|discriminate].
Qed.

(** X6.  Whatever the constructor of the client, the video backend and the
    browser do, a call of [generateVideo] that settles rejects only when the
    constructor throws, with what it threw and before anything is submitted.
    Otherwise it resolves, and what it did is: the submission, then for each
    status query a wait of 5000 ms and the query, asked only about an
    operation that was not done, then at most one download and after it at
    most one console line, and nothing else.  It resolves with a URL only
    when the download succeeded and nothing was logged, and the URL is the
    object URL made for the downloaded blob; whenever a line is logged it
    resolves with null. *)
Theorem generateVideo_shape :
  forall (newGoogleGenAI : string -> Js.Settled VeoBackend) (browser : Browser)
         (apiKey prompt : string) (fuel : nat)
         (r : Js.Settled (option string)) (events : list Event),
    generateVideoCall newGoogleGenAI browser apiKey prompt fuel
    = Some (r, events) ->
    (exists e,
       newGoogleGenAI apiKey = Js.Rejected e
       /\ r = Js.Rejected e /\ events = [])
    \/ (exists (veoAi : VeoBackend) (result : option string)
               (ops : list Operation) (fetched : option string)
               (logged : option Js.error),
          newGoogleGenAI apiKey = Js.Resolved veoAi
          /\ r = Js.Resolved result
          /\ events
             = (Submitted (videoPrompt prompt)
                  :: pollingOf ops ++ downloadOf fetched ++ loggedOf logged)%list
          /\ Forall (fun op => done op = false) ops
          /\ polls events = length ops
          /\ length ops <= fuel
          /\ (is_Some logged -> result = None)
          /\ (forall url, result = Some url ->
                logged = None
                /\ exists link blob,
                     fetched = Some (link ++ "&key=" ++ apiKey)
                     /\ fetchBlob browser (link ++ "&key=" ++ apiKey)
                        = Js.Resolved blob
                     /\ url = createObjectURL browser blob)).
Proof.
  intros newGoogleGenAI browser apiKey prompt fuel r events Hrun.
  unfold generateVideoCall in Hrun.
  destruct (newGoogleGenAI apiKey) as [veo|e0];
    [right; exists veo | left; exists e0; by injection Hrun as <- <-].
  assert (Hpolls : forall ops fetched logged,
            polls (Submitted (videoPrompt prompt)
                     :: pollingOf ops ++ downloadOf fetched ++ loggedOf logged)
            = length ops).
  { intros ops fetched logged.
    rewrite polls_cons, !polls_app, polls_pollingOf.
    destruct fetched, logged; cbn; lia. }
  unfold generateVideo, videoJob in Hrun.
  destruct (generateVideos veo (videoPrompt prompt)) as [operation|e].
  - destruct (poll veo fuel 0 operation) as [[evs [finished|e]]|] eqn:Hpoll;
      [| |discriminate].
    + destruct (poll_shape _ _ _ _ _ _ Hpoll) as (ops & -> & Hops & Hlen & _).
      unfold download in Hrun.
      destruct (Js.truthy (default "" (videoUri finished))) eqn:Hlink;
        cbn [negb] in Hrun.
      * destruct (fetchBlob browser
                    (default "" (videoUri finished) ++ "&key=" ++ apiKey))
          as [blob|e] eqn:Hfetch; injection Hrun as <- <-.
        -- exists (Some (createObjectURL browser blob)), ops,
             (Some (default "" (videoUri finished) ++ "&key=" ++ apiKey)), None.
           split_and!; try done.
           ++ exact (Hpolls ops (Some _) None).
           ++ intros url [= <-]. split; [done|]. by eexists _, _.
        -- exists None, ops,
             (Some (default "" (videoUri finished) ++ "&key=" ++ apiKey)),
             (Some e).
           split_and!; try done.
           ++ cbn [app]. by rewrite <- app_assoc.
           ++ cbn [app]. rewrite <- app_assoc.
              exact (Hpolls ops (Some _) (Some e)).
      * injection Hrun as <- <-. exists None, ops, None, None.
        split_and!; try done. exact (Hpolls ops None None).
    + destruct (poll_shape _ _ _ _ _ _ Hpoll) as (ops & -> & Hops & Hlen & _).
      injection Hrun as <- <-.
      exists None, ops, None, (Some e).
      split_and!; try done.
      exact (Hpolls ops None (Some e)).
  - injection Hrun as <- <-.
    exists None, [], None, (Some e).
    split_and!; try done; cbn; lia.
Qed.

(** The theorem at a client whose backend reports the job running twice and
    then completed, with three queries of fuel. *)
Lemma generateVideo_shape_witness :
  exists (ops : list Operation) (fetched : option string)
         (logged : option Js.error),
    (Submitted (videoPrompt "Mau Forest logging")
       :: turns 3 ++ [Fetched (Samples.locator ++ "&key=KEY")])%list
    = (Submitted (videoPrompt "Mau Forest logging")
         :: pollingOf ops ++ downloadOf fetched ++ loggedOf logged)%list
    /\ Forall (fun op => done op = false) ops
    /\ length ops <= 3
    /\ logged = None.
Proof.
  destruct (generateVideo_shape
              (fun _ =>
                 Js.Resolved
                   (scripted 2 (Js.Resolved (completed Samples.locator))))
              Samples.browser "KEY" "Mau Forest logging" 3 _ _ eq_refl)
    as [(e & He & _)
       | (veoAi & result & ops & fetched & logged & _ & Hr & Hevents & Hops
          & _ & Hlen & _ & Hurl)]; [discriminate He|].
  exists ops, fetched, logged. injection Hr as <-.
  destruct (Hurl _ eq_refl) as [Hlogged _]. done.
Defined.

Lemma poll_neverDone (veo : VeoBackend) (fuel : nat) :
  neverDone veo ->
  forall n operation, done operation = false ->
    poll veo fuel n operation = None.
Proof.
  intros Hnever. induction fuel as [|fuel IH]; intros n operation Hrunning;
    cbn [poll]; rewrite Hrunning; [reflexivity|].
  specialize (Hnever n operation).
  destruct (getVideosOperation veo n operation) as [next|e]; [|done].
  by rewrite IH.
Qed.

(** X7.  The polling loop has no bound of its own: for a backend that
    accepts the job and never reports it done, no number of status queries
    makes [generateVideo] settle. *)
Theorem generateVideo_never_settles :
  forall (veo : VeoBackend) (browser : Browser) (apiKey prompt : string)
         (submitted : Operation),
    generateVideos veo (videoPrompt prompt) = Js.Resolved submitted ->
    done submitted = false ->
    neverDone veo ->
    forall fuel, generateVideo veo browser apiKey prompt fuel = None.
Proof.
  intros veo browser apiKey prompt submitted Hsubmit Hrunning Hnever fuel.
  unfold generateVideo, videoJob.
  by rewrite Hsubmit, (poll_neverDone veo fuel Hnever 0 submitted Hrunning).
Qed.

Lemma generateVideo_never_settles_witness :
  generateVideo (scripted 0 (Js.Resolved running)) Samples.browser "KEY"
    "Mau Forest logging" 720 = None.
Proof.
  apply (generateVideo_never_settles (scripted 0 (Js.Resolved running))
           Samples.browser "KEY" "Mau Forest logging" running).
  - reflexivity.
  - reflexivity.
  - intros k operation. reflexivity.
Defined.


(** X8.  When the submission is rejected, or answered with an operation that
    is already done, [generateVideo] makes no status query and does not
    wait.  A rejected submission is logged and gives null; a done operation
    goes straight to the download, and gives null without a download when it
    carries no locator or an empty one. *)
Theorem generateVideo_without_polling :
  forall (veo : VeoBackend) (browser : Browser) (apiKey prompt : string)
         (fuel : nat),
    (forall e,
       generateVideos veo (videoPrompt prompt) = Js.Rejected e ->
       generateVideo veo browser apiKey prompt fuel
       = Some (Js.Resolved None,
               [Submitted (videoPrompt prompt);
                Logged (ConsoleError "Video Generation Error:" e)]))
    /\ (forall finished,
          generateVideos veo (videoPrompt prompt) = Js.Resolved finished ->
          done finished = true ->
          exists result rest,
            generateVideo veo browser apiKey prompt fuel
            = Some (Js.Resolved result,
                    Submitted (videoPrompt prompt) :: rest)
            /\ Forall (fun ev => match ev with
                                 | Waited _ | Polled _ => False
                                 | _ => True
                                 end) rest
            /\ (default "" (videoUri finished) = "" ->
                result = None /\ rest = [])).
Proof.
  intros veo browser apiKey prompt fuel. split.
  - intros e Hsubmit. unfold generateVideo, videoJob. by rewrite Hsubmit.
  - intros finished Hsubmit Hdone. unfold generateVideo, videoJob.
    rewrite Hsubmit.
    assert (Hpoll : poll veo fuel 0 finished = Some ([], Js.Resolved finished))
      by (destruct fuel; cbn [poll]; by rewrite Hdone).
    rewrite Hpoll. unfold download.
    destruct (default "" (videoUri finished)) as [|a link] eqn:Hlink.
    + cbn. exists None, []. by split_and!.
    + cbn [Js.truthy negb].
      destruct (fetchBlob browser (String a link ++ "&key=" ++ apiKey))
        as [blob|e]; cbn [app]; eexists _, _;
        (split_and!; [reflexivity| |discriminate]); by repeat constructor.
Qed.

(** A backend that refuses the job. *)
Lemma generateVideo_without_polling_witness :
  generateVideo
    {| generateVideos := fun _ => Js.Rejected (Js.Err "ApiError" "quota");
       getVideosOperation := fun _ operation => Js.Resolved operation |}
    Samples.browser "KEY" "Mau Forest logging" 5
  = Some (Js.Resolved None,
          [Submitted (videoPrompt "Mau Forest logging");
           Logged (ConsoleError "Video Generation Error:"
                     (Js.Err "ApiError" "quota"))]).
Proof.
  apply (proj1 (generateVideo_without_polling
                  {| generateVideos :=
                       fun _ => Js.Rejected (Js.Err "ApiError" "quota");
                     getVideosOperation :=
                       fun _ operation => Js.Resolved operation |}
                  Samples.browser "KEY" "Mau Forest logging" 5)).
  reflexivity.
Defined.

End VideoJobShape.


(** ** More on the chat transcript *)

Section TranscriptPaths.
Import Chatbot.

Lemma consume_texts (cs : list (option string)) :
  forall (schedule : list bool) (r : Run),
    consume cs schedule r = consume (Some <$> chunkTexts cs) schedule r.
Proof.
  induction cs as [|c cs IH]; intros schedule r; [reflexivity|].
  cbn [chunkTexts fmap list_fmap consume].
  destruct (awaiting (hd false schedule) r) as [r1|]; [|reflexivity].
  cbn [mbind option_bind]. rewrite IH. reflexivity.
Qed.

Lemma flush_caught (B : list Message) (e : Js.error) (r : Run) :
  streaming B r ->
  flush (enqueue (SetIsLoading false) (caught e r))
  = Some {| view := {| messages :=
                         (B ++ [modelMessage (fullText r)]) ++ [errorMessage];
                       inputValue := ""; isLoading := false |};
            queue := []; fullText := fullText r; applied := applied r;
            renders :=
              renders r
                ++ [(applied r,
                     ((B ++ [modelMessage (fullText r)]) ++ [errorMessage])%list)];
            errors := errors r ++ [e] |}.
Proof.
  intros [b Hb]. unfold flush.
  cbn [enqueue caught queue view fullText applied renders errors].
  rewrite !applyUpdates_snoc, (Hb (fullText r)). cbn.
  by destruct b.
Qed.

(** The run of [handleSend] on an open stream, for any chunks and either
    ending. *)
Lemma handleSend_stream
    (send : string -> Js.Settled Stream) (userText : string)
    (cs : list (option string)) (ending : option Js.error)
    (schedule : list bool) (v : View) :
  userText <> "" ->
  isLoading v = false ->
  send userText = Js.Resolved {| chunks := cs; failure := ending |} ->
  exists r,
    handleSend send userText schedule v = Some r
    /\ fullText r = joined (chunkTexts cs)
    /\ applied r = length cs
    /\ queue r = []
    /\ errors r = match ending with Some e => [e] | None => [] end
    /\ view r
       = {| messages :=
              (messages v
                 ++ [userMessage userText;
                     modelMessage (joined (chunkTexts cs))])
                ++ match ending with
                   | Some _ => [errorMessage]
                   | None => []
                   end;
            inputValue := ""; isLoading := false |}.
Proof.
  intros Htext Hidle Hsend.
  set (B := (messages v ++ [userMessage userText])%list).
  unfold handleSend. apply truthy_nonempty in Htext.
  rewrite Htext, Hidle, Hsend. cbn [negb orb chunks failure].
  set (placeholder := Append _).
  assert (Hloop : forall r1, streaming B (enqueue placeholder r1) ->
            fullText r1 = "" -> applied r1 = 0 -> errors r1 = [] ->
            exists r,
              (consume cs (tl schedule) (enqueue placeholder r1)
               ≫= fun r2 =>
                 match ending with
                 | Some e => flush (enqueue (SetIsLoading false) (caught e r2))
                 | None => flush (enqueue (SetIsLoading false) r2)
                 end) = Some r
              /\ fullText r = joined (chunkTexts cs)
              /\ applied r = length cs
              /\ queue r = []
              /\ errors r = match ending with Some e => [e] | None => [] end
              /\ view r
                 = {| messages :=
                        (messages v
                           ++ [userMessage userText;
                               modelMessage (joined (chunkTexts cs))])
                          ++ match ending with
                             | Some _ => [errorMessage]
                             | None => []
                             end;
                      inputValue := ""; isLoading := false |}).
  { intros r1 Hs Hft Hap Her. rewrite consume_texts.
    destruct (consume_streaming B (chunkTexts cs) (tl schedule) _ Hs)
      as (r2 & -> & Hs2 & Hft2 & Hap2 & Her2 & _).
    cbn [mbind option_bind].
    cbn [enqueue fullText applied errors] in Hft2, Hap2, Her2.
    rewrite Hft in Hft2. rewrite Hap in Hap2. rewrite Her in Her2.
    cbn [String.append Nat.add] in Hft2, Hap2.
    unfold chunkTexts in Hap2. rewrite length_fmap in Hap2.
    destruct ending as [e|].
    - rewrite (flush_caught B e r2 Hs2). eexists. split; [reflexivity|].
      cbn [fullText applied queue errors view].
      rewrite Hft2, Hap2, Her2. unfold B. rewrite <- (app_assoc (messages v)).
      by split_and!.
    - rewrite (flush_done B r2 Hs2). eexists. split; [reflexivity|].
      cbn [fullText applied queue errors view].
      rewrite Hft2, Hap2, Her2, app_nil_r. unfold B.
      rewrite <- (app_assoc (messages v)). by split_and!. }
  destruct (hd false schedule); cbn [awaiting].
  - cbn [flush enqueue queue view fullText applied renders errors app
         applyUpdates applyUpdate mbind option_bind fmap option_fmap
         option_map messages inputValue isLoading].
    apply Hloop; try reflexivity. by exists false.
  - cbn [mbind option_bind]. apply Hloop; try reflexivity. by exists false.
Qed.

Lemma chunkTexts_Some (fragments : list string) :
  chunkTexts (Some <$> fragments) = fragments.
Proof.
  unfold chunkTexts. induction fragments as [|f fs IH]; [reflexivity|].
  cbn [fmap list_fmap] in *. by rewrite IH.
Qed.

(** X9.  When the chat backend fails, [handleSend] still ends with the
    loading flag cleared, the input emptied and the error written to the
    console once.  If the stream cannot be opened, the transcript gets the
    question and the error message.  If the stream breaks after some
    fragments, the reply keeps the text accumulated from them, in order, and
    the error message is appended after it as a message of its own. *)
Theorem handleSend_failures :
  forall (send : string -> Js.Settled Stream) (userText : string)
         (fragments : list string) (e : Js.error) (schedule : list bool)
         (v : View),
    userText <> "" ->
    isLoading v = false ->
    (send userText = Js.Rejected e ->
     exists r,
       handleSend send userText schedule v = Some r
       /\ view r = {| messages :=
                        messages v ++ [userMessage userText; errorMessage];
                      inputValue := ""; isLoading := false |}
       /\ errors r = [e])
    /\ (send userText
        = Js.Resolved {| chunks := Some <$> fragments; failure := Some e |} ->
        exists r,
          handleSend send userText schedule v = Some r
          /\ fullText r = joined fragments
          /\ view r = {| messages :=
                           messages v
                             ++ [userMessage userText;
                                 modelMessage (joined fragments);
                                 errorMessage];
                         inputValue := ""; isLoading := false |}
          /\ errors r = [e]).
Proof.
  intros send userText fragments e schedule v Htext Hidle. split.
  - intros Hsend. unfold handleSend.
    pose proof (proj2 (truthy_nonempty userText) Htext) as Ht.
    rewrite Ht, Hidle, Hsend. cbn [negb orb].
    destruct (hd false schedule); cbn; eexists; split; try reflexivity;
      cbn; rewrite <- ?app_assoc; by split.
  - intros Hsend.
    destruct (handleSend_stream send userText _ _ schedule v Htext Hidle Hsend)
      as (r & Hrun & Hft & _ & _ & Her & Hview).
    rewrite chunkTexts_Some in Hft, Hview.
    exists r. rewrite <- app_assoc in Hview. by split_and!.
Qed.

Lemma handleSend_failures_witness :
  exists r,
    handleSend
      (fun _ => Js.Resolved {| chunks := Some <$> ["Mau "; "For"];
                               failure := Some (Js.Err "TypeError" "network error") |})
      "Status?" [true; false; true] Samples.chatView = Some r
    /\ fullText r = "Mau For"
    /\ view r = {| messages :=
                     [Samples.greeting; userMessage "Status?";
                      modelMessage "Mau For"; errorMessage];
                   inputValue := ""; isLoading := false |}
    /\ errors r = [Js.Err "TypeError" "network error"].
Proof.
  apply (proj2 (handleSend_failures
                  (fun _ => Js.Resolved
                              {| chunks := Some <$> ["Mau "; "For"];
                                 failure := Some (Js.Err "TypeError" "network error") |})
                  "Status?" ["Mau "; "For"] (Js.Err "TypeError" "network error")
                  [true; false; true] Samples.chatView
                  ltac:(discriminate) eq_refl)).
  reflexivity.
Defined.

(** X10.  A chunk whose [text] is undefined is not skipped: it adds the
    word "undefined" to the reply.  For a stream that closes, the reply is
    the concatenation, in order, of the chunks' texts with that word put for
    every missing one. *)
Theorem handleSend_undefined_text :
  forall (send : string -> Js.Settled Stream) (userText : string)
         (cs : list (option string)) (schedule : list bool) (v : View),
    userText <> "" ->
    isLoading v = false ->
    send userText = Js.Resolved {| chunks := cs; failure := None |} ->
    exists r,
      handleSend send userText schedule v = Some r
      /\ fullText r = joined (default "undefined" <$> cs)
      /\ view r = {| messages :=
                       messages v
                         ++ [userMessage userText;
                             modelMessage
                               (joined (default "undefined" <$> cs))];
                     inputValue := ""; isLoading := false |}
      /\ errors r = [].
Proof.
  intros send userText cs schedule v Htext Hidle Hsend.
  destruct (handleSend_stream send userText _ _ schedule v Htext Hidle Hsend)
    as (r & Hrun & Hft & _ & _ & Her & Hview).
  exists r. rewrite app_nil_r in Hview. by split_and!.
Qed.

Lemma handleSend_undefined_text_witness :
  exists r,
    handleSend
      (fun _ => Js.Resolved {| chunks := [Some "Mau "; None; Some " Forest"];
                               failure := None |})
      "Status?" [] Samples.chatView = Some r
    /\ fullText r = "Mau undefined Forest".
Proof.
  destruct (handleSend_undefined_text
              (fun _ => Js.Resolved
                          {| chunks := [Some "Mau "; None; Some " Forest"];
                             failure := None |})
              "Status?" [Some "Mau "; None; Some " Forest"] []
              Samples.chatView ltac:(discriminate) eq_refl eq_refl)
    as (r & Hrun & Hft & _).
  by exists r.
Defined.

End TranscriptPaths.


(** ** More on the PCM decoder *)

Section DecoderShape.
Import Chatbot.

Lemma fillChannels_resolved dataInt16 numChannels frameCount (m : nat) :
  forall (a : nat) (chs filled : list (list Js.number)),
    fillChannels dataInt16 numChannels frameCount (seq a m) chs
    = Js.Resolved filled ->
    m = 0 \/ a + m <= length chs.
Proof.
  induction m as [|m IH]; intros a chs filled Hrun; [by left|right].
  cbn [seq fillChannels] in Hrun.
  destruct (chs !! a) as [cd|] eqn:Hcd; [|discriminate].
  apply lookup_lt_Some in Hcd.
  destruct (IH _ _ _ Hrun) as [->|Hle]; [lia|].
  rewrite length_insert in Hle. lia.
Qed.

(** What the decoder resolves with, for any context: the buffer the context
    made, with its first [numChannels] channels filled. *)
Lemma decodeAudioData_resolved (ctx : AudioContext) (data : list byte)
    (rate : Js.number) (numChannels : nat) (buffer : AudioBuffer) :
  decodeAudioData ctx data rate numChannels = Js.Resolved buffer ->
  length data mod 2 = 0
  /\ exists buffer0,
       createBuffer ctx numChannels (frameCountOf data numChannels) rate
       = Js.Resolved buffer0
       /\ sampleRate buffer = sampleRate buffer0
       /\ length (channels buffer) = length (channels buffer0)
       /\ (numChannels = 0 \/ numChannels <= length (channels buffer0))
       /\ forall c,
            channels buffer !! c
            = if decide (c < numChannels)
              then fillChannel (int16s data) numChannels c
                     (frameCountOf data numChannels)
                     <$> channels buffer0 !! c
              else channels buffer0 !! c.
Proof.
  unfold decodeAudioData, Int16Array. intros Hrun.
  destruct (length data mod 2 =? 0)%nat eqn:Heven; [|discriminate].
  apply Nat.eqb_eq in Heven. split; [exact Heven|].
  cbn [Js.await] in Hrun. fold (frameCountOf data numChannels) in Hrun.
  destruct (createBuffer ctx numChannels (frameCountOf data numChannels) rate)
    as [buffer0|e]; [|discriminate].
  cbn [Js.await] in Hrun. exists buffer0. split; [reflexivity|].
  destruct (fillChannels (int16s data) numChannels
              (frameCountOf data numChannels) (seq 0 numChannels)
              (channels buffer0)) as [filled|e] eqn:Hfill; [|discriminate].
  cbn [Js.await] in Hrun. injection Hrun as <-. cbn [sampleRate channels].
  pose proof (fillChannels_resolved _ _ _ _ _ _ _ Hfill) as Hlen.
  destruct Hlen as [->|Hlen].
  - cbn in Hfill. injection Hfill as <-.
    split_and!; [reflexivity|reflexivity|by left|].
    intros c. case_decide; [lia | reflexivity].
  - destruct (fillChannels_seq (int16s data) numChannels
                (frameCountOf data numChannels) numChannels 0
                (channels buffer0) Hlen) as (filled' & Hfill' & Hl & Hget).
    rewrite Hfill in Hfill'. injection Hfill' as <-.
    split_and!; [reflexivity|exact Hl|by right|].
    intros c. rewrite Hget.
    repeat case_decide; (reflexivity || lia).
Qed.

(** X11.  The decoder never makes or resizes a channel: when it resolves,
    the byte length was even, the context made the buffer, at least
    [numChannels] channels wide, and the result has the context's sample rate
    and, channel for channel, the lengths the context gave; the channels
    past [numChannels] are untouched. *)
Theorem decodeAudioData_keeps_shape :
  forall (ctx : AudioContext) (data : list byte) (rate : Js.number)
         (numChannels : nat) (buffer : AudioBuffer),
    decodeAudioData ctx data rate numChannels = Js.Resolved buffer ->
    length data mod 2 = 0
    /\ exists buffer0,
         createBuffer ctx numChannels (frameCountOf data numChannels) rate
         = Js.Resolved buffer0
         /\ sampleRate buffer = sampleRate buffer0
         /\ (numChannels = 0 \/ numChannels <= length (channels buffer0))
         /\ (length <$> channels buffer) = (length <$> channels buffer0)
         /\ (forall c, numChannels <= c ->
               channels buffer !! c = channels buffer0 !! c).
Proof.
  intros ctx data rate numChannels buffer Hrun.
  destruct (decodeAudioData_resolved _ _ _ _ _ Hrun)
    as (Heven & buffer0 & Hctx & Hrate & Hlen & Hwide & Hget).
  split; [exact Heven|]. exists buffer0.
  split_and!; [exact Hctx|exact Hrate|exact Hwide| |].
  - apply list_eq. intros c. rewrite !list_lookup_fmap, Hget.
    case_decide; [|reflexivity].
    destruct (channels buffer0 !! c) as [cd|]; [|reflexivity].
    cbn. unfold fillChannel. by rewrite fold_insert_length.
  - intros c Hc. rewrite Hget. case_decide; [lia | reflexivity].
Qed.

Lemma decodeAudioData_keeps_shape_witness :
  exists buffer0,
    createBuffer Samples.webAudio 2 (frameCountOf Samples.stereo 2)
      (Js.Num 24000) = Js.Resolved buffer0
    /\ (length <$> channels buffer0) = [2; 2].
Proof.
  destruct (decodeAudioData_keeps_shape Samples.webAudio Samples.stereo
              (Js.Num 24000) 2 _ eq_refl)
    as (_ & buffer0 & Hctx & _ & _ & Hshape & _).
  exists buffer0. split; [exact Hctx|]. by rewrite <- Hshape.
Defined.

Lemma int16LE_range (data : list byte) (offset : nat) :
  (-32768 <= int16LE data offset < 32768)%Z.
Proof.
  unfold int16LE.
  destruct (data !! offset) as [lo|]; [|lia].
  destruct (data !! S offset) as [hi|]; [|lia].
  apply int16_spec.
Qed.

(** A 16-bit integer over 2^15 is a number in [-1, 1). *)
Lemma div_32768_range (v : Z) :
  (-32768 <= v < 32768)%Z ->
  exists q, Js.div (Js.of_Z v) (Js.Num 32768) = Js.Num q
            /\ (-1 <= q)%Q /\ (q < 1)%Q.
Proof.
  intros Hv. exists (Qred (inject_Z v / 32768)). split; [reflexivity|].
  rewrite Qred_correct. unfold Qdiv, Qmult, Qinv, inject_Z, Qle, Qlt. cbn.
  lia.
Qed.

Lemma turnsBelow_frameCount (n c i : nat) :
  0 < c -> i * c < n ->
  i < turnsBelow (Js.div (Js.of_nat n) (Js.of_nat c)).
Proof.
  intros Hc Hi. unfold Js.of_nat, Js.of_Z, Js.div.
  destruct (Qeq_bool (inject_Z (Z.of_nat c)) 0) eqn:Hb.
  { apply Qeq_bool_iff in Hb. unfold Qeq in Hb. cbn in Hb. lia. }
  cbn [turnsBelow].
  pose proof (Qle_ceiling (Qred (inject_Z (Z.of_nat n) / inject_Z (Z.of_nat c))))
    as Hceil.
  assert (Hred : (inject_Z (Z.of_nat n) / inject_Z (Z.of_nat c)
                  <= Qred (inject_Z (Z.of_nat n) / inject_Z (Z.of_nat c)))%Q)
    by (rewrite Qred_correct; apply Qle_refl).
  assert (Hlt : (inject_Z (Z.of_nat i)
                 < inject_Z (Z.of_nat n) / inject_Z (Z.of_nat c))%Q).
  { apply Qlt_shift_div_l.
    - unfold Qlt. cbn. lia.
    - rewrite <- inject_Z_mult, <- Zlt_Qlt. lia. }
  pose proof (Qlt_le_trans _ _ _ (Qlt_le_trans _ _ _ Hlt Hred) Hceil) as Hi'.
  rewrite <- Zlt_Qlt in Hi'. lia.
Qed.

(** X12.  Whatever buffer the context made: a frame of the result for which
    both bytes of the input sample are there holds that sample, the signed
    16-bit little-endian integer at byte offset [(i * numChannels + c) * 2]
    over 32768.0, and this is a number in [-1, 1). *)
Theorem decodeAudioData_sample_range :
  forall (ctx : AudioContext) (data : list byte) (rate : Js.number)
         (numChannels : nat) (buffer : AudioBuffer) (c i : nat)
         (x : Js.number),
    decodeAudioData ctx data rate numChannels = Js.Resolved buffer ->
    c < numChannels ->
    (i * numChannels + c) * 2 + 1 < length data ->
    sample buffer c i = Some x ->
    x = Js.div (Js.of_Z (int16LE data ((i * numChannels + c) * 2)))
          (Js.Num 32768)
    /\ exists q, x = Js.Num q /\ (-1 <= q)%Q /\ (q < 1)%Q.
Proof.
  intros ctx data rate numChannels buffer c i x Hrun Hc Hbytes Hx.
  destruct (decodeAudioData_resolved _ _ _ _ _ Hrun)
    as (Heven & buffer0 & _ & _ & _ & _ & Hget).
  assert (Hn : length (int16s data) = length data / 2).
  { apply int16s_length. apply Nat.Div0.div_exact in Heven. lia. }
  assert (Hk : i * numChannels + c < length data / 2).
  { apply Nat.div_le_lower_bound; lia. }
  unfold sample in Hx. rewrite Hget in Hx. case_decide; [|lia].
  destruct (channels buffer0 !! c) as [cd|]; [|discriminate].
  cbn [fmap option_fmap option_map mbind option_bind] in Hx.
  unfold fillChannel in Hx.
  pose proof (lookup_lt_Some _ _ _ Hx) as Hi.
  rewrite fold_insert_length in Hi. rewrite fold_insert_lookup in Hx.
  assert (Hturns : i < turnsBelow (frameCountOf data numChannels)).
  { unfold frameCountOf. apply turnsBelow_frameCount; nia. }
  case_decide; [|lia]. injection Hx as <-.
  unfold sampleAt. rewrite int16s_lookup by lia.
  rewrite (Nat.mul_comm 2). split; [reflexivity|].
  apply div_32768_range, int16LE_range.
Qed.

Lemma decodeAudioData_sample_range_witness :
  exists q,
    Js.Num (1 # 128) = Js.Num q /\ (-1 <= q)%Q /\ (q < 1)%Q.
Proof.
  refine (proj2 (decodeAudioData_sample_range Samples.webAudio
                   Samples.truncated (Js.Num 24000) 2 _ 1 0 (Js.Num (1 # 128))
                   eq_refl _ _ eq_refl)).
  - lia.
  - cbn. lia.
Defined.

End DecoderShape.


(** ** Grounding sources *)

Section Grounding.
Import Types GeminiService.



End Grounding.


(** ** The registry *)

Section RegistryInvariant.
Import Types App IncidentCard Registry.

(** With distinct ids, the map over the incidents with a given id rewrites
    one position. *)
Lemma map_at (f : IncidentReport -> IncidentReport)
    (incs : list IncidentReport) (i : nat) (inc : IncidentReport) :
  NoDup (id <$> incs) ->
  incs !! i = Some inc ->
  map (fun x => if String.eqb (id x) (id inc) then f x else x) incs
  = <[i := f inc]> incs.
Proof.
  intros Hnodup Hi. apply list_eq. intros j.
  change (map ?g incs) with (g <$> incs). rewrite list_lookup_fmap.
  destruct (decide (j = i)) as [->|Hne].
  - rewrite Hi, list_lookup_insert_eq by (by eapply lookup_lt_Some).
    cbn. by rewrite String.eqb_refl.
  - rewrite list_lookup_insert_ne by done.
    destruct (incs !! j) as [x|] eqn:Hj; [|reflexivity]. cbn.
    destruct (String.eqb_spec (id x) (id inc)) as [Heq|]; [|reflexivity].
    exfalso. apply Hne.
    apply (NoDup_lookup (id <$> incs) j i (id inc) Hnodup).
    + by rewrite list_lookup_fmap, Hj, <- Heq.
    + by rewrite list_lookup_fmap, Hi.
Qed.

(** A record the agent returns is newly detected and has no feedback. *)
Lemma analyzeImagery_record ai env img reg prev r :
  fst (GeminiService.analyzeImagery ai env img reg prev) = Some r ->
  status r = Detected /\ feedback r = None.
Proof.
  unfold GeminiService.analyzeImagery, GeminiService.analysis.
  destruct (ai img reg prev) as [resp|e]; cbn [Js.await]; [|discriminate].
  destruct (GeminiService.parseText (GeminiService.text resp)) as [d|e];
    cbn [Js.await]; [|discriminate].
  destruct (GeminiService.belowThreshold d); [discriminate|].
  destruct d as [|d]; [discriminate|].
  cbn [fst]. by intros [= <-].
Qed.

(** A card whose form is open belongs to an alerted incident that has no
    feedback yet. *)
Lemma settled_open (inc : IncidentReport) (card : Card) :
  settled inc card -> showFeedbackForm card = true ->
  feedback inc = None /\ status inc = Alerted.
Proof.
  intros [_ H] Hshow. destruct (feedback inc) as [fb|].
  - destruct H as [H _]. congruence.
  - destruct H as [[_ H]|H]; [congruence | done].
Qed.

Lemma consistent_card (s : Screen) (i : nat) (inc : IncidentReport)
    (card : Card) :
  consistent s -> incidents (app s) !! i = Some inc ->
  cards s !! i = Some card -> settled inc card.
Proof. intros [_ H]. by apply Forall2_lookup_lr. Qed.

Lemma consistent_incident (s : Screen) (i : nat) (card : Card) :
  consistent s -> cards s !! i = Some card ->
  exists inc, incidents (app s) !! i = Some inc /\ settled inc card.
Proof. intros [_ H]. by apply Forall2_lookup_r. Qed.

(** Rewriting the card at a position. *)
Lemma settled_withCard (s : Screen) (i : nat) (inc : IncidentReport)
    (card card' : Card) :
  consistent s -> incidents (app s) !! i = Some inc ->
  settled inc card' ->
  Forall2 settled (incidents (app s)) (<[i := card']> (cards s)).
Proof.
  intros [_ H] Hi Hs.
  rewrite <- (list_insert_id (incidents (app s)) i inc Hi).
  by apply Forall2_insert.
Qed.

Lemma consistent_step (s s' : Screen) :
  consistent s -> step s s' -> NoDup (ids s') -> consistent s'.
Proof.
  intros Hs Hstep Hnodup. split; [exact Hnodup|]. clear Hnodup.
  destruct Hstep as [ai env img reg prev r st' Hr Hst' | st' Hst'
                    | i inc time Hi Hshow
                    | i inc card Hi Hc Hshow | i card Hc Hshow
                    | i card rating Hc Hshow | i card notes Hc Hshow
                    | i inc card time now Hi Hc Hshow | i card Hc];
    cbn [app cards withApp withCard].
  - rewrite Hst'.
    destruct (analyzeImagery_record _ _ _ _ _ _ Hr) as [Hst Hfb].
    constructor; [|apply Hs]. split; [reflexivity|]. rewrite Hfb. by left.
  - rewrite Hst'. apply Hs.
  - destruct Hs as [Hnd Hs].
    cbn [updateIncidentStatus addLog setAgentLog setIncidents incidents].
    rewrite (map_at (withStatus Alerted) _ i inc Hnd Hi).
    destruct (Forall2_lookup_l _ _ _ _ _ Hs Hi) as (card & Hc & Hcard).
    rewrite <- (list_insert_id (cards s) i card Hc).
    apply Forall2_insert; [exact Hs|].
    destruct Hcard as [Hf Hcard]. split; [exact Hf|].
    unfold showsDispatch in Hshow. cbn [feedback withStatus status].
    destruct (feedback inc) as [fb|]; [|by right].
    destruct Hcard as (_ & _ & _ & Hst). rewrite Hst in Hshow.
    by destruct (accuracyRating fb).
  - apply (settled_withCard s i inc card _ Hs Hi).
    pose proof (consistent_card s i inc card Hs Hi Hc) as [Hf Hcard].
    split; [exact Hf|]. unfold showsVerify in Hshow.
    destruct (feedback inc) as [fb|].
    + destruct Hcard as (_ & _ & _ & Hst). rewrite Hst in Hshow.
      by destruct (accuracyRating fb).
    + destruct Hcard as [[Hst _]|Hst]; [by rewrite Hst in Hshow | by right].
  - destruct (consistent_incident s i card Hs Hc) as (inc & Hi & Hcard).
    apply (settled_withCard s i inc card _ Hs Hi).
    destruct (settled_open _ _ Hcard Hshow) as [Hfb Hst].
    split; [apply Hcard|]. rewrite Hfb. by right.
  - destruct (consistent_incident s i card Hs Hc) as (inc & Hi & Hcard).
    apply (settled_withCard s i inc card _ Hs Hi).
    destruct (settled_open _ _ Hcard Hshow) as [Hfb Hst].
    split; [apply Hcard|]. rewrite Hfb. by right.
  - destruct (consistent_incident s i card Hs Hc) as (inc & Hi & Hcard).
    apply (settled_withCard s i inc card _ Hs Hi).
    destruct (settled_open _ _ Hcard Hshow) as [Hfb Hst].
    split; [apply Hcard|]. rewrite Hfb. by right.
  - pose proof (consistent_card s i inc card Hs Hi Hc) as Hcard.
    destruct Hs as [Hnd Hs].
    cbn [handleFeedbackSubmit addLog setAgentLog setIncidents incidents].
    unfold feedbackUpdate.
    rewrite (map_at (withFeedback (submittedFeedback now (form card)))
               _ i inc Hnd Hi).
    apply Forall2_insert; [exact Hs|].
    destruct Hcard as [Hf _]. split; [exact Hf|].
    cbn [feedback withFeedback status showFeedbackForm setShowFeedbackForm
         confirmed updatedBy accuracyRating submittedFeedback].
    by split_and!.
  - destruct (consistent_incident s i card Hs Hc) as (inc & Hi & Hcard).
    apply (settled_withCard s i inc card _ Hs Hi).
    split; [reflexivity|]. destruct Hcard as [_ Hcard].
    destruct (feedback inc) as [fb|].
    + destruct Hcard as (_ & H). by split.
    + destruct Hcard as [[Hst _]|Hst]; [by left | by right].
Qed.

Lemma reachable_consistent (s : Screen) : reachable s -> consistent s.
Proof.
  induction 1 as [st Hempty | s s' _ IH Hstep Hnodup].
  - unfold consistent, ids, initial. cbn. rewrite Hempty.
    split; constructor.
  - by eapply consistent_step.
Qed.

End RegistryInvariant.


Section RegistrySessions.
Import Types App IncidentCard Registry.

(** The upload handler, run without anything in between, is a step. *)
Lemma handleFileUpload_step (s : Screen) ai env t1 t2 t3 img :
  step s
    {| app := fst (handleFileUpload ai env t1 t2 t3 img (app s));
       cards :=
         match fst (GeminiService.analyzeImagery ai env img
                      (selectedRegion (app s)) (regionHistory (app s))) with
         | Some _ => initialCard :: cards s
         | None => cards s
         end |}.
Proof.
  pose proof (handleFileUpload_incidents ai env t1 t2 t3 img (app s)) as H.
  destruct (fst (GeminiService.analyzeImagery _ _ _ _ _)) as [r|] eqn:Hr.
  - by eapply step_found.
  - by apply (step_other s).
Qed.

(** What a step does to the incidents: a new record in front, nothing, a
    detected record alerted, or an alerted record given its feedback. *)
Lemma step_incidents (s s' : Screen) :
  consistent s -> step s s' ->
  (exists r, status r = Detected /\ feedback r = None
             /\ incidents (app s') = r :: incidents (app s))
  \/ incidents (app s') = incidents (app s)
  \/ (exists i inc,
        incidents (app s) !! i = Some inc /\ status inc = Detected
        /\ feedback inc = None
        /\ incidents (app s')
           = <[i := withStatus Alerted inc]> (incidents (app s)))
  \/ (exists i inc fb,
        incidents (app s) !! i = Some inc /\ status inc = Alerted
        /\ feedback inc = None /\ confirmed fb = Some true
        /\ updatedBy fb = "Ranger-KWS-HQ"
        /\ incidents (app s')
           = <[i := withFeedback fb inc]> (incidents (app s))).
Proof.
  intros Hs Hstep.
  destruct Hstep as [ai env img reg prev r st' Hr Hst' | st' Hst'
                    | i inc time Hi Hshow
                    | i inc card Hi Hc Hshow | i card Hc Hshow
                    | i card rating Hc Hshow | i card notes Hc Hshow
                    | i inc card time now Hi Hc Hshow | i card Hc];
    cbn [app cards withApp withCard]; try (right; left; reflexivity).
  - left. exists r.
    destruct (analyzeImagery_record _ _ _ _ _ _ Hr) as [Hst Hfb]. done.
  - by right; left.
  - right; right; left. exists i, inc.
    destruct (Forall2_lookup_l _ _ _ _ _ (proj2 Hs) Hi) as (card & Hc & Hcard).
    unfold showsDispatch in Hshow.
    assert (Hst : status inc = Detected) by (by destruct (status inc)).
    assert (Hfb : feedback inc = None).
    { destruct Hcard as [_ Hcard]. destruct (feedback inc) as [fb|]; [|done].
      destruct Hcard as (_ & _ & _ & Hst'). rewrite Hst in Hst'.
      by destruct (accuracyRating fb). }
    split_and!; try done.
    cbn [updateIncidentStatus addLog setAgentLog setIncidents incidents].
    by apply map_at; [apply Hs|].
  - right; right; right.
    pose proof (consistent_card s i inc card Hs Hi Hc) as Hcard.
    destruct (settled_open _ _ Hcard Hshow) as [Hfb Hst].
    exists i, inc, (submittedFeedback now (form card)).
    split_and!; try done; [apply Hcard|].
    cbn [handleFeedbackSubmit addLog setAgentLog setIncidents incidents].
    unfold feedbackUpdate. by apply map_at; [apply Hs|].
Qed.

Lemma reaches_reachable (s s' : Screen) :
  reachable s -> reaches s s' -> reachable s'.
Proof.
  intros Hs. induction 1 as [|s1 s2 _ IH Hstep Hnodup]; [done|].
  by eapply reach_step.
Qed.

(** A record that has its feedback is still there after a step. *)
Lemma step_keeps_verified (s s' : Screen) (inc : IncidentReport) :
  consistent s -> step s s' ->
  inc ∈ incidents (app s) -> is_Some (feedback inc) ->
  inc ∈ incidents (app s').
Proof.
  intros Hs Hstep Hin [fb Hfb].
  destruct (step_incidents s s' Hs Hstep)
    as [(r & _ & _ & ->) | [-> | [(i & x & Hi & _ & Hx & ->)
       | (i & x & y & Hi & _ & Hx & _ & _ & ->)]]];
    [by right | done | |].
  all: apply list_elem_of_lookup in Hin as [j Hj];
    apply list_elem_of_lookup; exists j;
    rewrite list_lookup_insert_ne; [done|];
    intros ->; rewrite Hi in Hj; injection Hj as ->; congruence.
Qed.

(** The sample session. *)
Ltac one_id :=
  match goal with
  | |- NoDup (ids ?s) =>
      replace (ids s) with ["2m7p1"] by (by vm_compute);
      apply NoDup_singleton
  end.

Lemma found_reachable : reachable Samples.found.
Proof.
  apply (reach_step (initial Samples.emptyState)).
  - by apply reach_initial.
  - apply (handleFileUpload_step (initial Samples.emptyState)).
  - one_id.
Qed.

Lemma found_dispatched : step Samples.found Samples.dispatched.
Proof.
  by apply (step_dispatch Samples.found 0 Samples.record "10:31:12").
Qed.

Lemma dispatched_reachable : reachable Samples.dispatched.
Proof.
  apply (reach_step Samples.found);
    [apply found_reachable | apply found_dispatched |].
  one_id.
Qed.

Lemma opened_reachable : reachable Samples.opened.
Proof.
  apply (reach_step Samples.dispatched); [apply dispatched_reachable | |].
  - by apply (step_open Samples.dispatched 0
                (withStatus Alerted Samples.record) initialCard).
  - one_id.
Qed.

Lemma rated_reachable : reachable Samples.rated.
Proof.
  apply (reach_step Samples.opened); [apply opened_reachable | |].
  - by apply (step_rating Samples.opened 0
                (setShowFeedbackForm true initialCard) Incorrect).
  - one_id.
Qed.

Lemma rated_verified : step Samples.rated Samples.verified.
Proof.
  by apply (step_submit Samples.rated 0 (withStatus Alerted Samples.record)
              (setFeedback
                 {| f_confirmed := Some true; f_rating := Incorrect;
                    f_notes := "" |}
                 (setShowFeedbackForm true initialCard))
              "12:30:00" 1768473000000).
Qed.

Lemma verified_reachable : reachable Samples.verified.
Proof.
  apply (reach_step Samples.rated);
    [apply rated_reachable | apply rated_verified |].
  one_id.
Qed.

End RegistrySessions.


Section RegistryLifecycle.
Import Types App IncidentCard Registry.

(** X14.  On every screen of a session that starts with an empty registry
    and in which the ids of the records are distinct, a record without
    feedback is Detected or Alerted, and a record with feedback carries
    [confirmed: true] and the updater "Ranger-KWS-HQ" and is a False Positive
    when rated Incorrect and a Threat Confirmed otherwise: no record is ever
    Investigation Pending or Area Secured. *)
Theorem registry_statuses (s : Screen) :
  reachable s ->
  Forall (fun inc =>
            match feedback inc with
            | None => status inc = Detected \/ status inc = Alerted
            | Some fb =>
                confirmed fb = Some true
                /\ updatedBy fb = "Ranger-KWS-HQ"
                /\ status inc = match accuracyRating fb with
                                | Incorrect => FalsePositive
                                | _ => ThreatConfirmed
                                end
            end)
    (incidents (app s)).
Proof.
  intros Hs. apply reachable_consistent in Hs as [_ Hs].
  induction Hs as [|inc card incs cs [_ H] _ IH]; constructor; [|exact IH].
  destruct (feedback inc) as [fb|].
  - by destruct H as (_ & ? & ? & ?).
  - destruct H as [[? _]|?]; [by left | by right].
Qed.

Lemma registry_statuses_witness :
  reachable Samples.verified
  /\ Forall (fun inc =>
               match feedback inc with
               | None => status inc = Detected \/ status inc = Alerted
               | Some fb =>
                   confirmed fb = Some true
                   /\ updatedBy fb = "Ranger-KWS-HQ"
                   /\ status inc = match accuracyRating fb with
                                   | Incorrect => FalsePositive
                                   | _ => ThreatConfirmed
                                   end
               end)
       (incidents (app Samples.verified)).
Proof.
  split; [apply verified_reachable|].
  apply (registry_statuses Samples.verified), verified_reachable.
Defined.

(** X15.  In such a session a record that has its feedback stays in the
    registry as it is, whatever happens afterwards: no later upload,
    dispatch or submission changes or removes it. *)
Theorem verified_record_is_final (s s' : Screen) (inc : IncidentReport) :
  reachable s -> reaches s s' ->
  inc ∈ incidents (app s) -> is_Some (feedback inc) ->
  inc ∈ incidents (app s').
Proof.
  intros Hs Hreach Hin Hfb.
  induction Hreach as [|s1 s2 Hreach IH Hstep Hnodup]; [done|].
  apply (step_keeps_verified s1 s2); [|done..].
  by apply reachable_consistent, (reaches_reachable s).
Qed.

Lemma verified_record_is_final_witness :
  reachable Samples.verified
  /\ reaches Samples.verified Samples.foundAgain
  /\ withFeedback Samples.falseAlarm (withStatus Alerted Samples.record)
       ∈ incidents (app Samples.verified)
  /\ is_Some (feedback (withFeedback Samples.falseAlarm
                          (withStatus Alerted Samples.record)))
  /\ withFeedback Samples.falseAlarm (withStatus Alerted Samples.record)
       ∈ incidents (app Samples.foundAgain).
Proof.
  assert (Hreach : reaches Samples.verified Samples.foundAgain).
  { apply (reaches_step _ Samples.verified); [apply reaches_here | |].
    - apply (handleFileUpload_step Samples.verified).
    - replace (ids Samples.foundAgain) with ["7w1zr"; "2m7p1"]
        by (by vm_compute).
      apply NoDup_cons. split; [|apply NoDup_singleton].
      intros H. apply list_elem_of_singleton in H. discriminate. }
  assert (Hin : withFeedback Samples.falseAlarm
                  (withStatus Alerted Samples.record)
                ∈ incidents (app Samples.verified)) by apply list_elem_of_here.
  assert (Hfb : is_Some (feedback (withFeedback Samples.falseAlarm
                                     (withStatus Alerted Samples.record))))
    by (by eexists).
  split_and!; [apply verified_reachable | exact Hreach | exact Hin
              | exact Hfb |].
  exact (verified_record_is_final Samples.verified Samples.foundAgain _
           verified_reachable Hreach Hin Hfb).
Defined.

(** X16.  In such a session a step leaves a record as it is, alerts a
    Detected record, or attaches the feedback to an Alerted record that has
    none; the record keeps its id and stays in the registry. *)
Theorem status_lifecycle (s s' : Screen) (i : nat) (inc : IncidentReport) :
  reachable s -> step s s' ->
  incidents (app s) !! i = Some inc ->
  exists j inc',
    incidents (app s') !! j = Some inc' /\ id inc' = id inc
    /\ (inc' = inc
        \/ (status inc = Detected /\ inc' = withStatus Alerted inc)
        \/ (status inc = Alerted /\ feedback inc = None
            /\ exists fb, inc' = withFeedback fb inc)).
Proof.
  intros Hs Hstep Hi. apply reachable_consistent in Hs.
  destruct (step_incidents s s' Hs Hstep)
    as [(r & _ & _ & ->) | [-> | [(k & x & Hk & Hst & Hx & ->)
       | (k & x & fb & Hk & Hst & Hx & _ & _ & ->)]]].
  - exists (S i), inc. split_and!; [done | done | by left].
  - exists i, inc. split_and!; [done | done | by left].
  - destruct (decide (i = k)) as [->|Hne].
    + rewrite Hi in Hk. injection Hk as <-.
      exists k, (withStatus Alerted inc).
      rewrite list_lookup_insert_eq by (by eapply lookup_lt_Some).
      split_and!; [done | done | by right; left].
    + exists i, inc. rewrite list_lookup_insert_ne by done.
      split_and!; [done | done | by left].
  - destruct (decide (i = k)) as [->|Hne].
    + rewrite Hi in Hk. injection Hk as <-.
      exists k, (withFeedback fb inc).
      rewrite list_lookup_insert_eq by (by eapply lookup_lt_Some).
      split_and!; [done | done |]. right; right. split_and!; [done..|].
      by exists fb.
    + exists i, inc. rewrite list_lookup_insert_ne by done.
      split_and!; [done | done | by left].
Qed.

Lemma status_lifecycle_witness :
  reachable Samples.found
  /\ step Samples.found Samples.dispatched
  /\ incidents (app Samples.found) !! 0%nat = Some Samples.record
  /\ exists j inc',
       incidents (app Samples.dispatched) !! j = Some inc'
       /\ id inc' = id Samples.record
       /\ (inc' = Samples.record
           \/ (status Samples.record = Detected
               /\ inc' = withStatus Alerted Samples.record)
           \/ (status Samples.record = Alerted
               /\ feedback Samples.record = None
               /\ exists fb, inc' = withFeedback fb Samples.record)).
Proof.
  split_and!; [apply found_reachable | apply found_dispatched | reflexivity |].
  exact (status_lifecycle Samples.found Samples.dispatched 0 Samples.record
           found_reachable found_dispatched eq_refl).
Defined.

End RegistryLifecycle.


Section RegistryFigures.
Import Types App IncidentCard Registry.

(** X17.  In a session that starts with an empty registry and in which the
    ids of the records are distinct, the "Verified Alerts" figure of the
    dashboard is the number of records whose feedback is rated Correct or
    Partial. *)
Theorem verifiedAlerts_counts_upheld (s : Screen) :
  reachable s ->
  verifiedAlerts (app s) = length (List.filter upheld (incidents (app s))).
Proof.
  intros Hs. apply reachable_consistent in Hs as [_ Hs].
  unfold verifiedAlerts. f_equal.
  induction Hs as [|inc card incs cs [_ H] _ IH]; [reflexivity|].
  cbn [List.filter]. rewrite IH.
  replace (isThreatConfirmed (status inc)) with (upheld inc); [reflexivity|].
  unfold upheld. destruct (feedback inc) as [fb|].
  - destruct H as (_ & _ & _ & ->). by destruct (accuracyRating fb).
  - by destruct H as [[-> _]| ->].
Qed.

Lemma verifiedAlerts_counts_upheld_witness :
  reachable Samples.verified
  /\ verifiedAlerts (app Samples.verified)
     = length (List.filter upheld (incidents (app Samples.verified))).
Proof.
  split; [apply verified_reachable|].
  apply (verifiedAlerts_counts_upheld Samples.verified), verified_reachable.
Defined.

End RegistryFigures.
